(** * go-retryable-httpclient: request lifecycle and error classification

    A shallow embedding of package [httpclient] (error.go, httpclient.go,
    request.go, header.go, the option functions) and of package
    [policies], followed by the properties of the error model, the
    classification step, the decoding step, the client configuration and
    the construction of requests.

    Conventions of the embedding:
    - a Go [int] or [time.Duration] is a [Z] (no arithmetic is performed on
      them, so no wrap-around is involved);
    - a Go [string] and a [[]byte] are a [string] (a sequence of bytes);
    - a possibly-nil pointer or interface value is an [option];
    - a value behind a pointer carries the address it was allocated at, and
      interface equality [==] compares dynamic type and address;
    - effects (allocation, calls of the caller's callbacks, body reads, the
      network send) are threaded through a small state monad [M]. *)

From Stdlib Require Import String Ascii List ZArith Lia Bool DecimalString.
Import ListNotations.

Local Open Scope string_scope.
Local Open Scope Z_scope.

(** ** Package strings and strconv (the two functions the code calls) *)

Module strings.

(** [strings.HasPrefix s prefix]. *)
Fixpoint HasPrefix (s prefix : string) {struct prefix} : bool :=
  match prefix with
  | EmptyString => true
  | String c prefix' =>
      match s with
      | EmptyString => false
      | String d s' => Ascii.eqb c d && HasPrefix s' prefix'
      end
  end.

(** [strings.Contains s substr]: [substr] occurs at some offset of [s]. *)
Fixpoint Contains (s substr : string) : bool :=
  HasPrefix s substr ||
  match s with
  | EmptyString => false
  | String _ s' => Contains s' substr
  end.

End strings.

Module strconv.

(** [strconv.Itoa]: the decimal rendering of an integer. *)
Definition Itoa (i : Z) : string := NilZero.string_of_int (Z.to_int i).

End strconv.

(** ** Error values *)

(** An address of an allocated object. *)
Definition ptr := positive.

(** The struct [HttpError] of error.go, over the type [E] of error values
    (the field [Err] is itself an [error]). *)
Record HttpErrorOf (E : Type) : Type := mkHttpError {
  Url : string;
  StatusCode : Z;
  Body : string;
  Err : option E
}.

Arguments mkHttpError {E} _ _ _ _.
Arguments Url {E} _.
Arguments StatusCode {E} _.
Arguments Body {E} _.
Arguments Err {E} _.

(** The non-nil values of the interface [error] that the package creates or
    receives: pointers to [errorString] (errors.New), to [withStack]
    (errors.Wrap of github.com/pkg/errors) and to [HttpError]. *)
#[warnings="-register-all"]
Inductive error : Type :=
| errorString (p : ptr) (s : string)
| withStack (p : ptr) (cause : error) (msg : string)
| httpErrorPtr (p : ptr) (e : HttpErrorOf error).

Definition HttpError : Type := HttpErrorOf error.

(** The dynamic type of an interface value. *)
Inductive dynType : Type := TerrorString | TwithStack | THttpError.

Definition dynType_eqb (a b : dynType) : bool :=
  match a, b with
  | TerrorString, TerrorString => true
  | TwithStack, TwithStack => true
  | THttpError, THttpError => true
  | _, _ => false
  end.

Definition typeOf (e : error) : dynType :=
  match e with
  | errorString _ _ => TerrorString
  | withStack _ _ _ => TwithStack
  | httpErrorPtr _ _ => THttpError
  end.

Definition addrOf (e : error) : ptr :=
  match e with
  | errorString p _ => p
  | withStack p _ _ => p
  | httpErrorPtr p _ => p
  end.

(** What [==] on interface values looks at: nothing for nil, the dynamic
    type and the pointer otherwise. *)
Definition identity (e : option error) : option (dynType * ptr) :=
  match e with
  | None => None
  | Some x => Some (typeOf x, addrOf x)
  end.

(** ** Readers, and the parts of net/http and go-retryablehttp in use *)

Module io.

(** An [io.ReadCloser] seen by its reader: the sequence of outcomes of
    the successive [Read] calls, which ends with [io.EOF] or with another
    error. *)
Inductive Reader : Type :=
| EOF
| Data (chunk : string) (rest : Reader)
| Failure (e : error).

(** [io.ReadAll]: reads until EOF or an error and returns the bytes read
    so far with the error; EOF itself is not reported as an error. *)
Fixpoint ReadAll (r : Reader) : string * option error :=
  match r with
  | EOF => ("", None)
  | Data chunk rest => let (b, err) := ReadAll rest in (chunk ++ b, err)
  | Failure e => ("", Some e)
  end.

End io.

Module http.

Definition StatusBadRequest : Z := 400.

(** [http.Transport], with the fields the package patches. *)
Record Transport : Type := mkTransport {
  MaxIdleConns : Z;
  MaxIdleConnsPerHost : Z;
  MaxConnsPerHost : Z
}.

(** A non-nil [http.RoundTripper]: a pointer to a [Transport] or a
    custom implementation. *)
Inductive RoundTripper : Type :=
| transportPtr (t : Transport)
| customRoundTripper (p : ptr).

(** [http.Client]; its field [Transport] is named [RoundTrip] here, the
    record [Transport] above having taken the name. *)
Record Client : Type := mkClient {
  RoundTrip : option RoundTripper;
  Timeout : Z
}.

(** [http.Request]; [URL] is the URL in the form [URL.String()] gives. *)
Record Request : Type := mkRequest {
  Method : string;
  URL : string;
  Header : list (string * list string);
  RequestBody : option string
}.

Record Response : Type := mkResponse {
  StatusCode : Z;
  Body : io.Reader
}.

End http.

(** [context.Context], of which the package only passes values along. *)
Inductive Context : Type := ctxTODO | ctxBackground | ctxCanceled.

Module retryablehttp.

(** [retryablehttp.CheckRetry]. *)
Definition CheckRetry : Type :=
  Context -> option http.Response -> option error -> bool * option error.

Record Client : Type := mkClient {
  HTTPClient : option http.Client;
  RetryWaitMin : Z;
  RetryWaitMax : Z;
  RetryMax : Z;
  CheckRetry_ : option CheckRetry
}.

(** [retryablehttp.Request], which embeds the [http.Request]. *)
Record Request : Type := mkRequest { Request_ : http.Request }.

End retryablehttp.

(** ** Effects *)

(** A caller-supplied [func(dump []byte)], known by its address only. *)
Definition DumpLogger : Type := ptr.

(** What a call of the package does to the outside, in order. *)
Inductive Event : Type :=
| EvDumpRequestOut (req : http.Request) (body : bool)
| EvLogger (f : DumpLogger) (dump : string)
| EvDo (req : retryablehttp.Request)
| EvReadAll (r : io.Reader)
| EvJsonDecode (r : io.Reader) (v : ptr)
| EvClose (r : io.Reader).

Record State : Type := mkState {
  next : ptr;             (* the next free address *)
  trace : list Event      (* the events so far, oldest first *)
}.

Definition M (A : Type) : Type := State -> A * State.

Definition ret {A : Type} (a : A) : M A := fun s => (a, s).

Definition bind {A B : Type} (m : M A) (f : A -> M B) : M B :=
  fun s => let (a, s') := m s in f a s'.

Declare Scope go_scope.
Delimit Scope go_scope with go.
Notation "x <- c ;; k" := (bind c (fun x => k))
  (at level 61, c at next level, right associativity) : go_scope.
Notation "' pat <- c ;; k" := (bind c (fun x => match x with pat => k end))
  (at level 61, pat pattern, c at next level, right associativity) : go_scope.
Notation "c ;; k" := (bind c (fun _ => k))
  (at level 61, right associativity) : go_scope.
Local Open Scope go_scope.

(** Allocation of a new object: [&T{...}] or [new(T)]. *)
Definition new : M ptr :=
  fun s => (next s, mkState (Pos.succ (next s)) (trace s)).

Definition emit (e : Event) : M unit :=
  fun s => (tt, mkState (next s) (trace s ++ [e])).

(** [r.Close()]. *)
Definition Close (r : io.Reader) : M unit := emit (EvClose r).

Module errors.

(** [errors.New]. *)
Definition New (text : string) : M error :=
  p <- new ;; ret (errorString p text).

(** [errors.Wrap] of github.com/pkg/errors: nil for a nil error. *)
Definition Wrap (err : option error) (message : string) : M (option error) :=
  match err with
  | None => ret None
  | Some e => p <- new ;; ret (Some (withStack p e message))
  end.

End errors.

(** The collaborators behind the package's function variables that are
    not within the package: the retrying sender, the JSON decoder and the
    request dumper. *)
Record World : Type := mkWorld {
  retryablehttp_Do :
    option retryablehttp.Client -> retryablehttp.Request ->
    option http.Response * option error;
  json_Decode : io.Reader -> ptr -> option error;
  httputil_DumpRequestOut : http.Request -> bool -> string * option error;
  retryablehttp_NewClient : retryablehttp.Client;
  http_DefaultTransport : http.Transport
}.

(** ** Headers and the collaborators of request construction *)

(** An [http.Header], a map from keys to lists of values, is the list of
    its entries; only the first entry of a key counts. A nil header and an
    empty one are both the empty list: the package distinguishes them only
    to make the map before it writes to it. *)
Definition Header : Type := list (string * list string).

(** [h[k]], with its presence. *)
Fixpoint Header_lookup (h : Header) (k : string) : option (list string) :=
  match h with
  | [] => None
  | (k', vs) :: h' => if String.eqb k' k then Some vs else Header_lookup h' k
  end.

(** [h[k]]: nil for a missing key. *)
Definition Header_values (h : Header) (k : string) : list string :=
  match Header_lookup h k with
  | Some vs => vs
  | None => []
  end.

(** [h[k] = vs]. *)
Fixpoint Header_store (h : Header) (k : string) (vs : list string) : Header :=
  match h with
  | [] => [(k, vs)]
  | (k', vs') :: h' =>
      if String.eqb k' k then (k, vs) :: h'
      else (k', vs') :: Header_store h' k vs
  end.

(** [h.Add(key, value)] and [h.Set(key, value)], over the canonical form
    [canon] of keys ([textproto.CanonicalMIMEHeaderKey]). *)
Definition Header_Add (canon : string -> string) (h : Header)
    (key value : string) : Header :=
  Header_store h (canon key) (Header_values h (canon key) ++ [value])%list.

Definition Header_Set (canon : string -> string) (h : Header)
    (key value : string) : Header :=
  Header_store h (canon key) [value].

(** A value of type [any] handed over as request payload, by the cases of
    the type switch of [body]: nil, a string, or a value of another type
    (known by its address). *)
Inductive any : Type :=
| anyNil
| anyString (p : string)
| anyValue (v : ptr).

(** The collaborators of request construction: [http.NewRequestWithContext]
    (behind the function variable [newRequestWithContext]), the JSON encoder
    (behind [jsonEncode]; it yields the bytes written and the error), and the
    canonical form of header keys. *)
Record RequestWorld : Type := mkRequestWorld {
  http_NewRequestWithContext :
    Context -> string -> string -> option string ->
    option http.Request * option error;
  json_Encode : ptr -> string * option error;
  textproto_CanonicalMIMEHeaderKey : string -> string
}.

(** ** Package httpclient *)

Module httpclient.

(** *** error.go *)

(** The format string of the method [Error], applied to its four
    arguments already rendered with [%v]. *)
Definition Sprintf_Error (url httpStatusCode body err : string) : string :=
  "request to " ++ url ++ " failed. " ++
  "httpStatus: [ " ++ httpStatusCode ++ " ] responseBody: [ " ++ body ++ " ] " ++
  "error: [ " ++ err ++ " ]".

(** The method [Error] of every error type, the one of [HttpError]
    included (see [Error] below). *)
Fixpoint error_Error (e : error) : string :=
  match e with
  | errorString _ s => s
  | withStack _ cause msg => msg ++ ": " ++ error_Error cause
  | httpErrorPtr _ (mkHttpError url statusCode body err) =>
      let httpStatusCode :=
        if statusCode >? 0 then strconv.Itoa statusCode else "no status" in
      Sprintf_Error url httpStatusCode body
        (match err with
         | None => "<nil>"
         | Some e' => error_Error e'
         end)
  end.

(** [%v] applied to a value of type [error]. *)
Definition fmt_v_error (e : option error) : string :=
  match e with
  | None => "<nil>"
  | Some e' => error_Error e'
  end.

(** [func (e *HttpError) Error() string]. *)
Definition Error (e : HttpError) : string :=
  let httpStatusCode :=
    if StatusCode e >? 0 then strconv.Itoa (StatusCode e) else "no status" in
  Sprintf_Error (Url e) httpStatusCode (Body e) (fmt_v_error (Err e)).

Definition sameStatusCodes (status anotherStatus : Z) : bool :=
  (status =? anotherStatus) || (anotherStatus =? 0).

Definition sameBodies (body anotherBody : string) : bool :=
  strings.Contains body anotherBody || String.eqb anotherBody "".

(** [err == anotherErr] on interface values. *)
Definition sameErrors (err anotherErr : option error) : bool :=
  match err, anotherErr with
  | None, None => true
  | Some a, Some b =>
      dynType_eqb (typeOf a) (typeOf b) && Pos.eqb (addrOf a) (addrOf b)
  | _, _ => false
  end.

(** [func (e *HttpError) Is(targetErr error) bool]. *)
Definition Is (e : HttpError) (targetErr : option error) : bool :=
  match targetErr with
  | None => false
  | Some (httpErrorPtr _ t) =>
      sameStatusCodes (StatusCode e) (StatusCode t) &&
      sameBodies (Body e) (Body t) &&
      sameErrors (Err e) (Err t)
  | Some _ => false
  end.

(** *** httpclient.go *)

(** The package's function variable [ioReadAll]. *)
Definition ioReadAll (r : io.Reader) : M (string * option error) :=
  emit (EvReadAll r) ;; ret (io.ReadAll r).

(** The function variable [handleUnsuccessfulResponse]; the deferred
    [resp.Body.Close()] runs when the function returns. *)
Definition handleUnsuccessfulResponse (url : string)
    (resp : option http.Response) (receivedError : option error)
    : M (option error) :=
  let otherwise : M (option error) :=
    match receivedError with
    | Some _ =>
        p <- new ;;
        ret (Some (httpErrorPtr p (mkHttpError url 0 "" receivedError)))
    | None => ret None
    end in
  match resp with
  | Some r =>
      if http.StatusCode r >=? http.StatusBadRequest then
        httpErr <- new ;;
        '(respErr, err) <- ioReadAll (http.Body r) ;;
        match err with
        | Some _ =>
            wrapped <- errors.Wrap err "parsing response" ;;
            Close (http.Body r) ;;
            ret (Some (httpErrorPtr httpErr
                         (mkHttpError url (http.StatusCode r) "" wrapped)))
        | None =>
            Close (http.Body r) ;;
            ret (Some (httpErrorPtr httpErr
                         (mkHttpError url (http.StatusCode r) respErr
                                      receivedError)))
        end
      else otherwise
  | None => otherwise
  end.

(** The struct [Client]. Its only dump callback is [requestDumpLogger],
    with the flag [dumpRequestBody]. *)
Record Client : Type := mkClient {
  httpClient : option http.Client;
  retryableHttpClient : option retryablehttp.Client;
  timeout : Z;
  maxIdleConns : Z;
  maxIdleConnsPerHost : Z;
  maxConnsPerHost : Z;
  maxRetries : Z;
  checkRetryPolicy : option retryablehttp.CheckRetry;
  retryWaitMin : Z;
  retryWaitMax : Z;
  requestDumpLogger : option DumpLogger;
  dumpRequestBody : bool
}.

(** [new(Client)]: every field at its zero value. *)
Definition zeroClient : Client :=
  mkClient None None 0 0 0 0 0 None 0 0 None false.

(** Assignments to one field of a [Client]. *)
Definition set_httpClient (v : option http.Client) (c : Client) : Client :=
  mkClient v (retryableHttpClient c) (timeout c) (maxIdleConns c)
    (maxIdleConnsPerHost c) (maxConnsPerHost c) (maxRetries c)
    (checkRetryPolicy c) (retryWaitMin c) (retryWaitMax c)
    (requestDumpLogger c) (dumpRequestBody c).

Definition set_retryableHttpClient (v : option retryablehttp.Client)
    (c : Client) : Client :=
  mkClient (httpClient c) v (timeout c) (maxIdleConns c)
    (maxIdleConnsPerHost c) (maxConnsPerHost c) (maxRetries c)
    (checkRetryPolicy c) (retryWaitMin c) (retryWaitMax c)
    (requestDumpLogger c) (dumpRequestBody c).

Definition set_timeout (v : Z) (c : Client) : Client :=
  mkClient (httpClient c) (retryableHttpClient c) v (maxIdleConns c)
    (maxIdleConnsPerHost c) (maxConnsPerHost c) (maxRetries c)
    (checkRetryPolicy c) (retryWaitMin c) (retryWaitMax c)
    (requestDumpLogger c) (dumpRequestBody c).

Definition set_maxIdleConns (v : Z) (c : Client) : Client :=
  mkClient (httpClient c) (retryableHttpClient c) (timeout c) v
    (maxIdleConnsPerHost c) (maxConnsPerHost c) (maxRetries c)
    (checkRetryPolicy c) (retryWaitMin c) (retryWaitMax c)
    (requestDumpLogger c) (dumpRequestBody c).

Definition set_maxIdleConnsPerHost (v : Z) (c : Client) : Client :=
  mkClient (httpClient c) (retryableHttpClient c) (timeout c)
    (maxIdleConns c) v (maxConnsPerHost c) (maxRetries c)
    (checkRetryPolicy c) (retryWaitMin c) (retryWaitMax c)
    (requestDumpLogger c) (dumpRequestBody c).

Definition set_maxConnsPerHost (v : Z) (c : Client) : Client :=
  mkClient (httpClient c) (retryableHttpClient c) (timeout c)
    (maxIdleConns c) (maxIdleConnsPerHost c) v (maxRetries c)
    (checkRetryPolicy c) (retryWaitMin c) (retryWaitMax c)
    (requestDumpLogger c) (dumpRequestBody c).

Definition set_maxRetries (v : Z) (c : Client) : Client :=
  mkClient (httpClient c) (retryableHttpClient c) (timeout c)
    (maxIdleConns c) (maxIdleConnsPerHost c) (maxConnsPerHost c) v
    (checkRetryPolicy c) (retryWaitMin c) (retryWaitMax c)
    (requestDumpLogger c) (dumpRequestBody c).

Definition set_checkRetryPolicy (v : option retryablehttp.CheckRetry)
    (c : Client) : Client :=
  mkClient (httpClient c) (retryableHttpClient c) (timeout c)
    (maxIdleConns c) (maxIdleConnsPerHost c) (maxConnsPerHost c)
    (maxRetries c) v (retryWaitMin c) (retryWaitMax c)
    (requestDumpLogger c) (dumpRequestBody c).

Definition set_retryWaitMin (v : Z) (c : Client) : Client :=
  mkClient (httpClient c) (retryableHttpClient c) (timeout c)
    (maxIdleConns c) (maxIdleConnsPerHost c) (maxConnsPerHost c)
    (maxRetries c) (checkRetryPolicy c) v (retryWaitMax c)
    (requestDumpLogger c) (dumpRequestBody c).

Definition set_retryWaitMax (v : Z) (c : Client) : Client :=
  mkClient (httpClient c) (retryableHttpClient c) (timeout c)
    (maxIdleConns c) (maxIdleConnsPerHost c) (maxConnsPerHost c)
    (maxRetries c) (checkRetryPolicy c) (retryWaitMin c) v
    (requestDumpLogger c) (dumpRequestBody c).

Definition set_requestDumpLogger (v : option DumpLogger) (b : bool)
    (c : Client) : Client :=
  mkClient (httpClient c) (retryableHttpClient c) (timeout c)
    (maxIdleConns c) (maxIdleConnsPerHost c) (maxConnsPerHost c)
    (maxRetries c) (checkRetryPolicy c) (retryWaitMin c) (retryWaitMax c)
    v b.

(** [doNotRetryPolicy], the default retry policy. *)
Definition doNotRetryPolicy (ctx : Context) (resp : option http.Response)
    (err : option error) : bool * option error :=
  (false, None).

(** [patchRetryableClient]; [None] is the panic of a nil
    [client.retryableHttpClient]. *)
Definition patchRetryableClient (client : Client) : option Client :=
  match retryableHttpClient client with
  | None => None
  | Some _ =>
      let checkRetry :=
        match checkRetryPolicy client with
        | Some policy => Some policy
        | None => Some doNotRetryPolicy
        end in
      Some (set_retryableHttpClient
              (Some (retryablehttp.mkClient (httpClient client)
                       (retryWaitMin client) (retryWaitMax client)
                       (maxRetries client) checkRetry))
              client)
  end.

(** The function variable [castClientTransport]. *)
Definition castClientTransport (tr : http.RoundTripper)
    : option http.Transport * bool :=
  match tr with
  | http.transportPtr t => (Some t, true)
  | http.customRoundTripper _ => (None, false)
  end.

(** The option functions: an [Option] is a function that updates the
    [Client] it is given. *)
Definition Option : Type := Client -> Client.

Definition WithHttpClient (httpClient : option http.Client) : Option :=
  set_httpClient httpClient.
Definition WithTimeout (t : Z) : Option := set_timeout t.
Definition WithMaxIdleConns (n : Z) : Option := set_maxIdleConns n.
Definition WithMaxIdleConnsPerHost (n : Z) : Option :=
  set_maxIdleConnsPerHost n.
Definition WithMaxConnsPerHost (n : Z) : Option := set_maxConnsPerHost n.
Definition WithMaxRetries (n : Z) : Option := set_maxRetries n.
Definition WithRetryWaitMin (n : Z) : Option := set_retryWaitMin n.
Definition WithRetryWaitMax (n : Z) : Option := set_retryWaitMax n.
Definition WithCheckRetryPolicy
    (checkRetryPolicy : option retryablehttp.CheckRetry) : Option :=
  set_checkRetryPolicy checkRetryPolicy.
Definition WithRequestDumpLogger (requestDumpLogger : option DumpLogger)
    (dumpRequestBody : bool) : Option :=
  set_requestDumpLogger requestDumpLogger dumpRequestBody.

(** [newClient]: the options applied in order to a new [Client]. *)
Definition newClient (options : list Option) : Client :=
  fold_left (fun client option => option client) options zeroClient.

Section WithWorld.

Variable W : World.

(** The function variables that delegate to the collaborators. *)
Definition retryableHttpClientDo
    (retryableHttpClient : option retryablehttp.Client)
    (req : retryablehttp.Request)
    : M (option http.Response * option error) :=
  emit (EvDo req) ;; ret (retryablehttp_Do W retryableHttpClient req).

Definition jsonDecode (r : io.Reader) (data : ptr) : M (option error) :=
  emit (EvJsonDecode r data) ;; ret (json_Decode W r data).

Definition dumpRequestOut (req : http.Request) (body : bool)
    : M (string * option error) :=
  emit (EvDumpRequestOut req body) ;;
  ret (httputil_DumpRequestOut W req body).

(** The function variable [decodeResponse]; [v] is the destination,
    nil or a pointer. *)
Definition decodeResponse (url : string) (resp : option http.Response)
    (v : option ptr) : M (option error) :=
  match v with
  | Some data =>
      match resp with
      | Some r =>
          err <- jsonDecode (http.Body r) data ;;
          match err with
          | Some _ =>
              wrapped <- errors.Wrap err "decoding response" ;;
              p <- new ;;
              Close (http.Body r) ;;
              ret (Some (httpErrorPtr p
                           (mkHttpError url (http.StatusCode r) ""
                                        wrapped)))
          | None => Close (http.Body r) ;; ret None
          end
      | None => ret None
      end
  | None => ret None
  end.

(** [patchTransport]; [None] is the panic of a nil
    [client.httpClient]. *)
Definition patchTransport (client : Client) : option Client :=
  match httpClient client with
  | None => None
  | Some hc =>
      let tr :=
        match http.RoundTrip hc with
        | None => http.transportPtr (http_DefaultTransport W)
        | Some tr => tr
        end in
      match castClientTransport tr with
      | (Some transport, true) =>
          let t := http.mkTransport (maxIdleConns client)
                     (maxIdleConnsPerHost client)
                     (maxConnsPerHost client) in
          Some (set_httpClient
                  (Some (http.mkClient (Some (http.transportPtr t))
                           (http.Timeout hc)))
                  client)
      | _ =>
          Some (set_httpClient
                  (Some (http.mkClient (Some tr) (http.Timeout hc)))
                  client)
      end
  end.

(** [New]. *)
Definition New (options : list Option) : option Client :=
  let client := newClient options in
  let client :=
    set_retryableHttpClient (Some (retryablehttp_NewClient W)) client in
  let client :=
    match httpClient client with
    | None =>
        set_httpClient (Some (http.mkClient None (timeout client))) client
    | Some _ => client
    end in
  match patchTransport client with
  | None => None
  | Some client => patchRetryableClient client
  end.

(** [do]. *)
Definition do (retryableHttpClient : option retryablehttp.Client)
    (req : retryablehttp.Request) (v : option ptr)
    : M (option http.Response * option error) :=
  '(resp, err) <- retryableHttpClientDo retryableHttpClient req ;;
  err1 <- handleUnsuccessfulResponse
            (http.URL (retryablehttp.Request_ req)) resp err ;;
  match err1 with
  | Some _ => ret (resp, err1)
  | None =>
      err2 <- decodeResponse
                (http.URL (retryablehttp.Request_ req)) resp v ;;
      match err2 with
      | Some _ => ret (resp, err2)
      | None => ret (resp, None)
      end
  end.

(** [logRequestDump]. *)
Definition logRequestDump (c : Client) (req : http.Request) : M unit :=
  match requestDumpLogger c with
  | Some logger =>
      '(dump, err) <- dumpRequestOut req (dumpRequestBody c) ;;
      match err with
      | None => emit (EvLogger logger dump)
      | Some _ => ret tt
      end
  | None => ret tt
  end.

(** [sendRequest]. *)
Definition sendRequest (c : Client) (req : http.Request) (v : option ptr)
    : M (option http.Response * option error) :=
  logRequestDump c req ;;
  '(resp, err) <- do (retryableHttpClient c) (retryablehttp.mkRequest req) v ;;
  match err with
  | Some _ => ret (resp, err)
  | None => ret (resp, None)
  end.

(** [SendRequest]. *)
Definition SendRequest (c : Client) (req : http.Request)
    : M (option http.Response * option error) :=
  sendRequest c req None.

(** [SendRequestAndUnmarshallJsonResponse]. *)
Definition SendRequestAndUnmarshallJsonResponse (c : Client)
    (req : http.Request) (v : option ptr)
    : M (option http.Response * option error) :=
  sendRequest c req v.

End WithWorld.

(** *** request.go and header.go *)

(** The assignment [req.Header = h]. *)
Definition set_Header (h : Header) (req : http.Request) : http.Request :=
  http.mkRequest (http.Method req) (http.URL req) h (http.RequestBody req).

Section WithRequestWorld.

Variable RW : RequestWorld.

(** The function variables [newRequestWithContext] and [jsonEncode]. *)
Definition newRequestWithContext (ctx : Context) (method url : string)
    (body : option string) : option http.Request * option error :=
  http_NewRequestWithContext RW ctx method url body.

Definition jsonEncode (data : ptr) : string * option error :=
  json_Encode RW data.

(** [for k, v := range headers { req.Header.Add(k, v) }], the entries of
    [headers] taken in the order the iteration yields them. *)
Definition addHeaders (headers : list (string * string))
    (req : http.Request) : http.Request :=
  set_Header
    (fold_left
       (fun h kv =>
          Header_Add (textproto_CanonicalMIMEHeaderKey RW) h (fst kv) (snd kv))
       headers (http.Header req))
    req.

(** [NewRequest]. *)
Definition NewRequest (ctx : Context) (method url : string)
    : M (option http.Request * option error) :=
  let (req, err) := newRequestWithContext ctx method url None in
  match err with
  | Some _ =>
      wrapped <- errors.Wrap err "creating request" ;;
      ret (None, wrapped)
  | None => ret (req, None)
  end.

(** [NewRequestWithHeaders]; the constructor is taken to return, whenever
    it returns no error, a request with a header that is not nil, as
    [http.NewRequestWithContext] does. *)
Definition NewRequestWithHeaders (ctx : Context) (method url : string)
    (headers : list (string * string))
    : M (option http.Request * option error) :=
  let (req, err) := newRequestWithContext ctx method url None in
  match err with
  | Some _ =>
      wrapped <- errors.Wrap err "creating request" ;;
      ret (None, wrapped)
  | None => ret (option_map (addHeaders headers) req, None)
  end.

(** [body]: the payload as the bytes of a reader, nil for no reader. *)
Definition body (data : any) : M (option string * option error) :=
  match data with
  | anyNil => ret (None, None)
  | anyString p => ret (Some p, None)
  | anyValue v =>
      let (buf, err) := jsonEncode v in
      match err with
      | Some _ =>
          wrapped <- errors.Wrap err "encoding request payload" ;;
          ret (None, wrapped)
      | None => ret (Some buf, None)
      end
  end.

(** [NewJsonRequest]. *)
Definition NewJsonRequest (ctx : Context) (method url : string) (data : any)
    : M (option http.Request * option error) :=
  '(body, err) <- body data ;;
  match err with
  | Some _ => ret (None, err)
  | None =>
      let (req, err) := newRequestWithContext ctx method url body in
      match err with
      | Some _ =>
          wrapped <- errors.Wrap err "creating request" ;;
          ret (None, wrapped)
      | None =>
          ret (option_map
                 (set_Header [("Content-Type", ["application/json"])]) req,
               None)
      end
  end.

(** [NewJsonRequestWithHeaders]. *)
Definition NewJsonRequestWithHeaders (ctx : Context) (method url : string)
    (data : any) (headers : list (string * string))
    : M (option http.Request * option error) :=
  '(req, err) <- NewJsonRequest ctx method url data ;;
  match err with
  | Some _ => ret (None, err)
  | None => ret (option_map (addHeaders headers) req, None)
  end.

(** [AddAuthorizationBearerHeaderToRequest]. *)
Definition AddAuthorizationBearerHeaderToRequest (req : http.Request)
    (token : string) : http.Request :=
  let authHeader := "Authorization" in
  set_Header
    (Header_Set (textproto_CanonicalMIMEHeaderKey RW) (http.Header req)
       authHeader ("Bearer " ++ token))
    req.

End WithRequestWorld.

End httpclient.

(** ** Package policies *)

Module policies.

(** [DoNotRetry]. *)
Definition DoNotRetry (ctx : Context) (resp : option http.Response)
    (err : option error) : bool * option error :=
  (false, None).

(** [Eof]. *)
Definition Eof (ctx : Context) (resp : option http.Response)
    (err : option error) : bool * option error :=
  match err with
  | Some e => (strings.Contains (httpclient.error_Error e) "EOF", err)
  | None => (false, err)
  end.

End policies.

(** ** Notions used in the statements *)

(** [sub] occurs in [s] as a substring. *)
Definition substring (sub s : string) : Prop :=
  exists a b, s = a ++ sub ++ b.

(** The status rule of the fuzzy match: equal, or the target's is zero. *)
Definition statuses_match (status anotherStatus : Z) : Prop :=
  status = anotherStatus \/ anotherStatus = 0.

(** The body rule of the fuzzy match as the code has it: the target's body
    occurs in the source's, or the target's body is empty. *)
Definition bodies_match (body anotherBody : string) : Prop :=
  substring anotherBody body \/ anotherBody = "".

(** The body rule read in both directions: one body contains the other, or
    the target's body is empty. *)
Definition bodies_match_either_way (body anotherBody : string) : Prop :=
  (substring anotherBody body \/ substring body anotherBody) \/
  anotherBody = "".

(** Two error values are the same object (or both nil). *)
Definition errors_identical (err anotherErr : option error) : Prop :=
  identity err = identity anotherErr.

(** The bytes a reader delivers before it ends, and the error it ends
    with, if any. *)
Fixpoint content (r : io.Reader) : string :=
  match r with
  | io.EOF => ""
  | io.Data chunk rest => chunk ++ content rest
  | io.Failure _ => ""
  end.

Fixpoint failure (r : io.Reader) : option error :=
  match r with
  | io.EOF => None
  | io.Data _ rest => failure rest
  | io.Failure e => Some e
  end.

(** [e] is a call of a dump logger. *)
Definition isLogger (e : Event) : bool :=
  match e with
  | EvLogger _ _ => true
  | _ => false
  end.

(** ** Concrete values for the examples *)

Definition ex_url : string := "http://localhost/some/path".

Definition ex_request : http.Request :=
  http.mkRequest "POST" ex_url [] None.

Definition ex_random_error : error := errorString 1%positive "random error".

Definition ex_state : State := mkState 10%positive [].

Definition ex_ok_response : http.Response :=
  http.mkResponse 200 (io.Data "hello, " (io.Data "world" io.EOF)).

Definition ex_source_error : HttpError := mkHttpError ex_url 400 "some" None.

Definition ex_target_error : HttpError :=
  mkHttpError ex_url 400 "some body" None.

Definition ex_decode_error : error :=
  errorString 2%positive "unexpected end of JSON input".

(** A stand-in for the retry policy the sender library installs by
    default: retry on any error and on a status code of 500 or more. *)
Definition ex_library_policy : retryablehttp.CheckRetry :=
  fun _ resp err =>
    match err, resp with
    | Some _, _ => (true, None)
    | None, Some r => (http.StatusCode r >=? 500, None)
    | None, None => (false, None)
    end.

(** A world whose sender answers every request with [resp] and [err],
    and whose decoder answers [decodeErr]. *)
Definition ex_world (resp : option http.Response) (err decodeErr : option error)
    : World :=
  mkWorld (fun _ _ => (resp, err))
          (fun _ _ => decodeErr)
          (fun req _ => (http.Method req ++ " " ++ http.URL req, None))
          (retryablehttp.mkClient None 1000000000 30000000000 4
             (Some ex_library_policy))
          (http.mkTransport 100 0 0).

Definition ex_error_response : http.Response :=
  http.mkResponse 500 (io.Data "some random " (io.Data "error" io.EOF)).

Definition ex_read_error : error := errorString 3%positive "connection reset".

Definition ex_broken_response : http.Response :=
  http.mkResponse 500 (io.Data "some" (io.Failure ex_read_error)).

Definition ex_retryable_request : retryablehttp.Request :=
  retryablehttp.mkRequest ex_request.

(** A computation that calls no dump logger: whatever the state, it only
    appends events to the trace, none of them a logger call. *)
Definition quiet {A : Type} (m : M A) : Prop :=
  forall s, exists post : list Event,
    trace (snd (m s)) = (trace s ++ post)%list /\
    existsb isLogger post = false.

(** The events of dumping the request [req] for the client [c]: the call
    of the dumper and the call of the request dump logger with the
    dumper's output. *)
Definition request_dump_event (W : World) (c : httpclient.Client)
    (req : http.Request) (e : Event) : Prop :=
  e = EvDumpRequestOut req (httpclient.dumpRequestBody c) \/
  exists f,
    httpclient.requestDumpLogger c = Some f /\
    e = EvLogger f
          (fst (httputil_DumpRequestOut W req (httpclient.dumpRequestBody c))).

(** An option that leaves the retry policy of the client alone. *)
Definition keepsPolicy (o : httpclient.Option) : Prop :=
  forall c, httpclient.checkRetryPolicy (o c) = httpclient.checkRetryPolicy c.

(** The retry predicate installed in the sender of a client. *)
Definition installedPolicy (c : option httpclient.Client)
    : option retryablehttp.CheckRetry :=
  match c with
  | Some c' =>
      match httpclient.retryableHttpClient c' with
      | Some rc => retryablehttp.CheckRetry_ rc
      | None => None
      end
  | None => None
  end.




(** The calls of the option functions, and the option each one yields. *)
Inductive OptionCall : Type :=
| CallWithHttpClient (httpClient : option http.Client)
| CallWithTimeout (t : Z)
| CallWithMaxIdleConns (n : Z)
| CallWithMaxIdleConnsPerHost (n : Z)
| CallWithMaxConnsPerHost (n : Z)
| CallWithMaxRetries (n : Z)
| CallWithRetryWaitMin (n : Z)
| CallWithRetryWaitMax (n : Z)
| CallWithCheckRetryPolicy (policy : option retryablehttp.CheckRetry)
| CallWithRequestDumpLogger (logger : option DumpLogger) (dumpBody : bool).

Definition toOption (o : OptionCall) : httpclient.Option :=
  match o with
  | CallWithHttpClient hc => httpclient.WithHttpClient hc
  | CallWithTimeout t => httpclient.WithTimeout t
  | CallWithMaxIdleConns n => httpclient.WithMaxIdleConns n
  | CallWithMaxIdleConnsPerHost n => httpclient.WithMaxIdleConnsPerHost n
  | CallWithMaxConnsPerHost n => httpclient.WithMaxConnsPerHost n
  | CallWithMaxRetries n => httpclient.WithMaxRetries n
  | CallWithRetryWaitMin n => httpclient.WithRetryWaitMin n
  | CallWithRetryWaitMax n => httpclient.WithRetryWaitMax n
  | CallWithCheckRetryPolicy p => httpclient.WithCheckRetryPolicy p
  | CallWithRequestDumpLogger f b => httpclient.WithRequestDumpLogger f b
  end.

(** Which option function a call is of. *)
Definition optionKind (o : OptionCall) : nat :=
  match o with
  | CallWithHttpClient _ => 0
  | CallWithTimeout _ => 1
  | CallWithMaxIdleConns _ => 2
  | CallWithMaxIdleConnsPerHost _ => 3
  | CallWithMaxConnsPerHost _ => 4
  | CallWithMaxRetries _ => 5
  | CallWithRetryWaitMin _ => 6
  | CallWithRetryWaitMax _ => 7
  | CallWithCheckRetryPolicy _ => 8
  | CallWithRequestDumpLogger _ _ => 9
  end%nat.

(** The transport [New] builds from the connection options of a client. *)
Definition patchedTransport (c : httpclient.Client) : http.RoundTripper :=
  http.transportPtr
    (http.mkTransport (httpclient.maxIdleConns c)
       (httpclient.maxIdleConnsPerHost c) (httpclient.maxConnsPerHost c)).

(** A world of request construction for the examples: the constructor
    refuses an empty method and otherwise builds the request with an empty
    header; the encoder fails on the value at address 1; keys are taken
    as canonical as they are. *)
Definition ex_request_world : RequestWorld :=
  mkRequestWorld
    (fun _ method url body =>
       if String.eqb method ""
       then (None, Some (errorString 4%positive "net/http: invalid method"))
       else (Some (http.mkRequest method url [] body), None))
    (fun v =>
       if Pos.eqb v 1
       then ("", Some (errorString 5%positive "json: unsupported type"))
       else ("{}", None))
    (fun k => k).


(** A world like [ex_world], whose request dumper fails. *)
Definition ex_world_dump_failure (resp : option http.Response)
    (err decodeErr : option error) : World :=
  mkWorld (fun _ _ => (resp, err))
          (fun _ _ => decodeErr)
          (fun _ _ => ("", Some (errorString 6%positive "dump failed")))
          (retryablehttp.mkClient None 1000000000 30000000000 4
             (Some ex_library_policy))
          (http.mkTransport 100 0 0).

Definition ex_logging_client : httpclient.Client :=
  httpclient.WithRequestDumpLogger (Some 7%positive) false
    httpclient.zeroClient.

Definition ex_custom_http_client : http.Client :=
  http.mkClient (Some (http.customRoundTripper 9%positive)) 25000000000.

(** * Properties *)

(** ** Substrings *)

Section Substrings.

Lemma HasPrefix_app (p b : string) : strings.HasPrefix (p ++ b) p = true.
Proof.
  induction p as [|c p IH]; simpl; [reflexivity|].
  now rewrite Ascii.eqb_refl, IH.
Qed.

Lemma HasPrefix_inv (p s : string) :
  strings.HasPrefix s p = true -> exists b, s = p ++ b.
Proof.
  revert s; induction p as [|c p IH]; intros s H; simpl in *.
  - now exists s.
  - destruct s as [|d s]; [discriminate|].
    apply andb_true_iff in H as [Hc Hp].
    apply Ascii.eqb_eq in Hc; subst d.
    destruct (IH _ Hp) as [b ->].
    now exists b.
Qed.

Lemma Contains_unfold (s substr : string) :
  strings.Contains s substr =
  strings.HasPrefix s substr ||
  match s with
  | EmptyString => false
  | String _ s' => strings.Contains s' substr
  end.
Proof. destruct s; reflexivity. Qed.

Lemma Contains_app (a substr b : string) :
  strings.Contains (a ++ substr ++ b) substr = true.
Proof.
  induction a as [|c a IH].
  - rewrite Contains_unfold; simpl. now rewrite HasPrefix_app.
  - rewrite Contains_unfold; simpl. rewrite IH. apply orb_true_r.
Qed.

Lemma Contains_inv (s substr : string) :
  strings.Contains s substr = true -> exists a b, s = a ++ substr ++ b.
Proof.
  induction s as [|c s IH]; rewrite Contains_unfold; intros H.
  - rewrite orb_false_r in H.
    destruct (HasPrefix_inv _ _ H) as [b ->]. now exists "", b.
  - apply orb_true_iff in H as [H|H].
    + destruct (HasPrefix_inv _ _ H) as [b Hb]. now exists "", b.
    + destruct (IH H) as (a & b & ->). now exists (String c a), b.
Qed.

(** [strings.Contains s substr] holds exactly when [substr] is a
    substring of [s]. *)
Lemma Contains_iff (s substr : string) :
  strings.Contains s substr = true <-> exists a b, s = a ++ substr ++ b.
Proof.
  split; [apply Contains_inv|].
  intros (a & b & ->). apply Contains_app.
Qed.

Lemma Contains_empty (s : string) : strings.Contains s "" = true.
Proof. apply Contains_iff. now exists "", s. Qed.

End Substrings.


(** ** The error model (error.go) *)

Section ErrorModel.

Import httpclient.

Lemma dynType_eqb_eq (a b : dynType) : dynType_eqb a b = true <-> a = b.
Proof. destruct a, b; simpl; split; congruence. Qed.

(** [sameErrors] compares identities, never messages. *)
Lemma sameErrors_iff (err anotherErr : option error) :
  sameErrors err anotherErr = true <-> errors_identical err anotherErr.
Proof.
  unfold errors_identical.
  destruct err as [a|], anotherErr as [b|]; simpl; try (split; congruence).
  rewrite andb_true_iff, dynType_eqb_eq, Pos.eqb_eq.
  split; [intros [-> ->]; reflexivity | intros H; injection H; auto].
Qed.

Lemma sameStatusCodes_iff (status anotherStatus : Z) :
  sameStatusCodes status anotherStatus = true <->
  statuses_match status anotherStatus.
Proof.
  unfold sameStatusCodes, statuses_match.
  now rewrite orb_true_iff, !Z.eqb_eq.
Qed.

Lemma sameBodies_iff (body anotherBody : string) :
  sameBodies body anotherBody = true <-> bodies_match body anotherBody.
Proof.
  unfold sameBodies, bodies_match, substring.
  now rewrite orb_true_iff, Contains_iff, String.eqb_eq.
Qed.

(** The method [Error] of the interface value agrees with the method of
    the struct behind it. *)
Lemma error_Error_httpErrorPtr (p : ptr) (e : HttpError) :
  error_Error (httpErrorPtr p e) = Error e.
Proof. destruct e as [u st b [e'|]]; reflexivity. Qed.

Lemma same_message_different_errors :
  sameErrors (Some (errorString 1%positive "random error"))
             (Some (errorString 2%positive "random error")) = false.
Proof. reflexivity. Qed.

(** [Is] on two HttpErrors, rule by rule. *)
Lemma Is_iff (e t : HttpError) (p : ptr) :
  Is e (Some (httpErrorPtr p t)) = true <->
  statuses_match (StatusCode e) (StatusCode t) /\
  bodies_match (Body e) (Body t) /\
  errors_identical (Err e) (Err t).
Proof.
  unfold Is.
  now rewrite !andb_true_iff, sameStatusCodes_iff, sameBodies_iff,
    sameErrors_iff, and_assoc.
Qed.

(** A nil target and a target that is no HttpError never match. *)
Lemma Is_other_targets (e : HttpError) (p : ptr) (msg : string)
    (cause : error) :
  Is e None = false /\
  Is e (Some (errorString p msg)) = false /\
  Is e (Some (withStack p cause msg)) = false.
Proof. repeat split. Qed.

(** C3, as the code has it: for two HttpErrors, [Is] holds exactly when
    the status codes are equal or the target's is 0, the target's body
    occurs in the source's body or is empty, and the underlying errors are
    the same object. The containment of bodies goes one way only. *)
Theorem Is_fuzzy_match (e t : HttpError) (p : ptr) :
  Is e (Some (httpErrorPtr p t)) = true <->
  (StatusCode e = StatusCode t \/ StatusCode t = 0) /\
  ((exists a b, Body e = a ++ Body t ++ b) \/ Body t = "") /\
  identity (Err e) = identity (Err t).
Proof. exact (Is_iff e t p). Qed.

(** C3, as stated, fails: a source body that occurs in the target's body
    (and not the other way round) is no match for [Is], although one of the
    two bodies contains the other. *)
Lemma Is_bodies_one_way_only :
  ~ (Is ex_source_error (Some (httpErrorPtr 1%positive ex_target_error)) = true <->
     statuses_match (StatusCode ex_source_error) (StatusCode ex_target_error) /\
     bodies_match_either_way (Body ex_source_error) (Body ex_target_error) /\
     errors_identical (Err ex_source_error) (Err ex_target_error)).
Proof.
  intros [_ H].
  assert (E : Is ex_source_error
                (Some (httpErrorPtr 1%positive ex_target_error)) = false)
    by reflexivity.
  rewrite H in E; [discriminate|].
  split; [left; reflexivity|].
  split; [|reflexivity].
  left; right. exists "", " body". reflexivity.
Qed.

(** C4: with identical underlying errors, a target of status code 0
    matches a source of any status code once the bodies match, and a target
    of empty body matches a source of any body once the status codes
    match. *)
Theorem Is_wildcards (url : string) (status : Z) (body : string)
    (err : option error) (t : HttpError) (p : ptr) :
  errors_identical err (Err t) ->
  (StatusCode t = 0 /\ bodies_match body (Body t)) \/
  (Body t = "" /\ statuses_match status (StatusCode t)) ->
  Is (mkHttpError url status body err) (Some (httpErrorPtr p t)) = true.
Proof.
  intros Herr H.
  apply Is_iff; simpl.
  destruct H as [[Hs Hb]|[Hb Hs]].
  - repeat split; [right; exact Hs | exact Hb | exact Herr].
  - repeat split; [exact Hs | right; exact Hb | exact Herr].
Qed.

Lemma Is_wildcards_witness :
  Is (mkHttpError ex_url 500 "boom" None)
     (Some (httpErrorPtr 1%positive (mkHttpError "" 0 "" None))) = true.
Proof.
  apply (Is_wildcards ex_url 500 "boom" None (mkHttpError "" 0 "" None)
           1%positive).
  - reflexivity.
  - left. split; [reflexivity | right; reflexivity].
Defined.

(** C10: the message of an HttpError with status code 502, empty body and
    nil underlying error, built for the URL [u], is the expected line; and
    with status code 0 the status is rendered as [no status]. *)
Theorem Error_message (u body : string) (err : option error) :
  Error (mkHttpError u 502 "" None) =
    "request to " ++ u ++
    " failed. httpStatus: [ 502 ] responseBody: [  ] error: [ <nil> ]" /\
  Error (mkHttpError u 0 body err) =
    "request to " ++ u ++
    " failed. httpStatus: [ no status ] responseBody: [ " ++ body ++
    " ] error: [ " ++ fmt_v_error err ++ " ]".
Proof. split; reflexivity. Qed.

(** The cases of the package's test of [Is]. *)
Example TestIs_same_status_code :
  Is (mkHttpError "" 400 "" None)
     (Some (httpErrorPtr 1%positive (mkHttpError "" 400 "" None))) = true.
Proof. reflexivity. Qed.

Example TestIs_different_status_code :
  Is (mkHttpError "" 400 "" None)
     (Some (httpErrorPtr 1%positive (mkHttpError "" 500 "" None))) = false.
Proof. reflexivity. Qed.

Example TestIs_without_status_code :
  Is (mkHttpError "" 400 "" None)
     (Some (httpErrorPtr 1%positive (mkHttpError "" 0 "" None))) = true.
Proof. reflexivity. Qed.

Example TestIs_same_body :
  Is (mkHttpError "" 0 "some body" None)
     (Some (httpErrorPtr 1%positive (mkHttpError "" 0 "some body" None))) =
  true.
Proof. reflexivity. Qed.

Example TestIs_empty_body :
  Is (mkHttpError "" 0 "some body" None)
     (Some (httpErrorPtr 1%positive (mkHttpError "" 0 "" None))) = true.
Proof. reflexivity. Qed.

Example TestIs_different_body :
  Is (mkHttpError "" 0 "some body" None)
     (Some (httpErrorPtr 1%positive (mkHttpError "" 0 "another body" None))) =
  false.
Proof. reflexivity. Qed.

Example TestIs_same_err :
  Is (mkHttpError "" 0 "" (Some ex_random_error))
     (Some (httpErrorPtr 1%positive
              (mkHttpError "" 0 "" (Some ex_random_error)))) = true.
Proof. reflexivity. Qed.

Example TestIs_different_err :
  Is (mkHttpError "" 0 "" (Some ex_read_error))
     (Some (httpErrorPtr 1%positive
              (mkHttpError "" 0 "" (Some ex_random_error)))) = false.
Proof. reflexivity. Qed.

(** The message the package's tests expect for a send without response. *)
Example Error_without_response :
  Error (mkHttpError ex_url 0 "" (Some ex_random_error)) =
  "request to http://localhost/some/path failed. httpStatus: [ no status ] responseBody: [  ] error: [ random error ]".
Proof. reflexivity. Qed.

End ErrorModel.

(** ** Classification of the outcome of a send *)

Section Classification.

Import httpclient.

(** [io.ReadAll] returns what the reader delivers and the error it ends
    with. *)
Lemma ReadAll_content_failure (r : io.Reader) :
  io.ReadAll r = (content r, failure r).
Proof.
  induction r as [|chunk rest IH|e]; simpl; try reflexivity.
  now rewrite IH.
Qed.

Lemma StatusCode_geb (r : http.Response) :
  (http.StatusCode r >=? http.StatusBadRequest) = true <->
  http.StatusCode r >= 400.
Proof. unfold http.StatusBadRequest. rewrite Z.geb_le. lia. Qed.

Lemma StatusCode_geb_false (r : http.Response) :
  (http.StatusCode r >=? http.StatusBadRequest) = false <->
  http.StatusCode r < 400.
Proof.
  unfold http.StatusBadRequest. rewrite Z.geb_leb, Z.leb_gt. lia.
Qed.

(** Unfolding of the monad's operations in a goal. *)
Ltac run :=
  unfold handleUnsuccessfulResponse, ioReadAll, errors.Wrap, Close,
    bind, ret, new, emit; simpl.

(** C2: a response of status code 400 or more whose body reads to its end
    is classified as an HttpError with the response's status code, the
    whole body, the target URL and the received error. *)
Theorem application_error_classified (url : string) (r : http.Response)
    (receivedError : option error) (s : State) :
  http.StatusCode r >= 400 ->
  failure (http.Body r) = None ->
  handleUnsuccessfulResponse url (Some r) receivedError s =
  (Some (httpErrorPtr (next s)
           (mkHttpError url (http.StatusCode r) (content (http.Body r))
                        receivedError)),
   mkState (Pos.succ (next s))
           (trace s ++ [EvReadAll (http.Body r); EvClose (http.Body r)])).
Proof.
  intros Hst Hread.
  apply StatusCode_geb in Hst.
  run. rewrite Hst, ReadAll_content_failure, Hread; simpl.
  now rewrite <- app_assoc.
Qed.

Lemma application_error_classified_witness :
  http.StatusCode ex_error_response >= 400 /\
  failure (http.Body ex_error_response) = None /\
  fst (handleUnsuccessfulResponse ex_url (Some ex_error_response)
         (Some ex_random_error) ex_state) =
  Some (httpErrorPtr 10%positive
          (mkHttpError ex_url 500 "some random error" (Some ex_random_error))).
Proof.
  split; [simpl; lia|]. split; [reflexivity|].
  rewrite (application_error_classified ex_url ex_error_response
             (Some ex_random_error) ex_state);
    [reflexivity | simpl; lia | reflexivity].
Defined.

(** C5: when reading the body of a response of status code 400 or more
    fails, the HttpError returned has an empty body and, as underlying
    error, the read failure wrapped with the message [parsing response];
    the received error appears nowhere in it. *)
Theorem body_read_failure_classified (url : string) (r : http.Response)
    (receivedError : option error) (readErr : error) (s : State) :
  http.StatusCode r >= 400 ->
  failure (http.Body r) = Some readErr ->
  let wrapped := withStack (Pos.succ (next s)) readErr "parsing response" in
  handleUnsuccessfulResponse url (Some r) receivedError s =
  (Some (httpErrorPtr (next s)
           (mkHttpError url (http.StatusCode r) "" (Some wrapped))),
   mkState (Pos.succ (Pos.succ (next s)))
           (trace s ++ [EvReadAll (http.Body r); EvClose (http.Body r)])) /\
  error_Error wrapped = "parsing response: " ++ error_Error readErr.
Proof.
  intros Hst Hread wrapped.
  apply StatusCode_geb in Hst.
  split; [|reflexivity].
  run. rewrite Hst, ReadAll_content_failure, Hread; simpl.
  now rewrite <- app_assoc.
Qed.

Lemma body_read_failure_classified_witness :
  http.StatusCode ex_broken_response >= 400 /\
  failure (http.Body ex_broken_response) = Some ex_read_error /\
  fst (handleUnsuccessfulResponse ex_url (Some ex_broken_response)
         (Some ex_random_error) ex_state) =
  Some (httpErrorPtr 10%positive
          (mkHttpError ex_url 500 ""
             (Some (withStack 11%positive ex_read_error "parsing response")))).
Proof.
  split; [simpl; lia|]. split; [reflexivity|].
  rewrite (proj1 (body_read_failure_classified ex_url ex_broken_response
                    (Some ex_random_error) ex_read_error ex_state
                    ltac:(simpl; lia) eq_refl)).
  reflexivity.
Defined.

(** C7: without a response, a received error is returned in an HttpError
    of status code 0 and empty body; without a received error either,
    nothing is returned. *)
Theorem no_response_classified (url : string) (e : error) (s : State) :
  handleUnsuccessfulResponse url None (Some e) s =
  (Some (httpErrorPtr (next s) (mkHttpError url 0 "" (Some e))),
   mkState (Pos.succ (next s)) (trace s)) /\
  handleUnsuccessfulResponse url None None s = (None, s).
Proof. split; reflexivity. Qed.

Lemma classification_passes_iff (url : string) (r : http.Response)
    (err : option error) (s : State) :
  fst (handleUnsuccessfulResponse url (Some r) err s) = None <->
  http.StatusCode r < 400 /\ err = None.
Proof.
  rewrite <- StatusCode_geb_false.
  run. destruct (http.StatusCode r >=? http.StatusBadRequest).
  - destruct (io.ReadAll (http.Body r)) as [b [e|]]; simpl;
      split; [discriminate | intros [? _]; discriminate
             | discriminate | intros [? _]; discriminate].
  - destruct err; simpl; split; try discriminate; auto.
    intros [_ ?]; discriminate.
Qed.

Lemma classification_passes_state (url : string) (r : http.Response)
    (s : State) :
  http.StatusCode r < 400 ->
  handleUnsuccessfulResponse url (Some r) None s = (None, s).
Proof.
  intros H. apply StatusCode_geb_false in H. run. now rewrite H.
Qed.

(** C1, as the code has it: a response of status code below 400 that
    comes with an error is classified as an HttpError of status code 0 and
    empty body around that error, and [do] returns the response with it
    right after the send, without decoding. *)
Theorem success_status_with_error_classified (W : World)
    (c : option retryablehttp.Client) (req : retryablehttp.Request)
    (v : option ptr) (url : string) (r : http.Response) (e : error)
    (s : State) :
  http.StatusCode r < 400 ->
  retryablehttp_Do W c req = (Some r, Some e) ->
  handleUnsuccessfulResponse url (Some r) (Some e) s =
    (Some (httpErrorPtr (next s) (mkHttpError url 0 "" (Some e))),
     mkState (Pos.succ (next s)) (trace s)) /\
  do W c req v s =
    ((Some r,
      Some (httpErrorPtr (next s)
              (mkHttpError (http.URL (retryablehttp.Request_ req)) 0 ""
                           (Some e)))),
     mkState (Pos.succ (next s)) (trace s ++ [EvDo req])).
Proof.
  intros Hst Hdo. apply StatusCode_geb_false in Hst.
  split.
  - run. now rewrite Hst.
  - unfold do, retryableHttpClientDo. run. now rewrite Hdo, Hst.
Qed.

Lemma success_status_with_error_classified_witness :
  http.StatusCode ex_ok_response < 400 /\
  fst (do (ex_world (Some ex_ok_response) (Some ex_random_error) None)
          None ex_retryable_request (Some 5%positive) ex_state) =
  (Some ex_ok_response,
   Some (httpErrorPtr 10%positive
           (mkHttpError ex_url 0 "" (Some ex_random_error)))).
Proof.
  split; [simpl; lia|].
  rewrite (proj2 (success_status_with_error_classified
                    (ex_world (Some ex_ok_response) (Some ex_random_error)
                              None)
                    None ex_retryable_request (Some 5%positive) ex_url
                    ex_ok_response ex_random_error ex_state
                    ltac:(simpl; lia) eq_refl)).
  reflexivity.
Defined.

(** C1, as stated, fails: the error that comes with a response of status
    code 200 is returned by the classification. *)
Lemma success_status_with_error_is_surfaced :
  ~ (http.StatusCode ex_ok_response < 400 ->
     fst (handleUnsuccessfulResponse ex_url (Some ex_ok_response)
            (Some ex_random_error) ex_state) = None).
Proof.
  intros H.
  assert (Hlt : http.StatusCode ex_ok_response < 400) by (simpl; lia).
  specialize (H Hlt). discriminate H.
Qed.

End Classification.

(** ** The dispatch pipeline *)

Section Pipeline.

Import httpclient.

Variable W : World.

(** C8: when the response passed the classification and a destination is
    given, a failure of the JSON decoder is returned as an HttpError with
    the response's status code and, as underlying error, the failure
    wrapped with the message [decoding response]; [do] returns the
    response with it. *)
Theorem decode_failure_reported (c : option retryablehttp.Client)
    (req : retryablehttp.Request) (r : http.Response) (err : option error)
    (data : ptr) (decodeErr : error) (s : State) :
  let url := http.URL (retryablehttp.Request_ req) in
  let wrapped := withStack (next s) decodeErr "decoding response" in
  retryablehttp_Do W c req = (Some r, err) ->
  fst (handleUnsuccessfulResponse url (Some r) err
         (mkState (next s) (trace s ++ [EvDo req]))) = None ->
  json_Decode W (http.Body r) data = Some decodeErr ->
  do W c req (Some data) s =
    ((Some r,
      Some (httpErrorPtr (Pos.succ (next s))
              (mkHttpError url (http.StatusCode r) "" (Some wrapped)))),
     mkState (Pos.succ (Pos.succ (next s)))
       (trace s ++
        [EvDo req; EvJsonDecode (http.Body r) data; EvClose (http.Body r)])) /\
  error_Error wrapped = "decoding response: " ++ error_Error decodeErr.
Proof.
  intros url wrapped Hdo Hpass Hdec.
  split; [|reflexivity].
  apply classification_passes_iff in Hpass as [Hst ->].
  unfold do, retryableHttpClientDo, bind at 1 2, emit, ret at 1.
  simpl. rewrite Hdo.
  unfold bind at 1. rewrite classification_passes_state by exact Hst.
  unfold decodeResponse, jsonDecode, errors.Wrap, Close, bind, emit, ret, new.
  simpl. rewrite Hdec. simpl.
  now rewrite <- !app_assoc.
Qed.

(** *** Calls of the dump loggers *)

Lemma quiet_ret (A : Type) (a : A) : quiet (ret a).
Proof. intros s. exists []. now rewrite app_nil_r. Qed.

Lemma quiet_new : quiet new.
Proof. intros s. exists []. simpl. now rewrite app_nil_r. Qed.

Lemma quiet_emit (e : Event) : isLogger e = false -> quiet (emit e).
Proof. intros H s. exists [e]. simpl. now rewrite H. Qed.

Lemma quiet_bind (A B : Type) (m : M A) (f : A -> M B) :
  quiet m -> (forall a, quiet (f a)) -> quiet (bind m f).
Proof.
  intros Hm Hf s. unfold bind.
  destruct (Hm s) as (p1 & E1 & Q1).
  destruct (m s) as [a s1]; simpl in E1.
  destruct (Hf a s1) as (p2 & E2 & Q2).
  exists (p1 ++ p2)%list.
  rewrite E2, E1, <- app_assoc, existsb_app, Q1, Q2.
  split; reflexivity.
Qed.

(** Decomposition of a computation into steps that are quiet. *)
Ltac quiet_steps :=
  repeat first
    [ apply quiet_ret
    | apply quiet_new
    | apply quiet_emit; reflexivity
    | apply quiet_bind; [|intros ?]
    | match goal with
      | |- quiet (match ?x with _ => _ end) => destruct x
      | |- quiet (if ?b then _ else _) => destruct b
      end ].

Lemma quiet_handleUnsuccessfulResponse (url : string)
    (resp : option http.Response) (receivedError : option error) :
  quiet (handleUnsuccessfulResponse url resp receivedError).
Proof.
  unfold handleUnsuccessfulResponse, ioReadAll, errors.Wrap, Close.
  quiet_steps.
Qed.

Lemma quiet_decodeResponse (url : string) (resp : option http.Response)
    (v : option ptr) :
  quiet (decodeResponse W url resp v).
Proof.
  unfold decodeResponse, jsonDecode, errors.Wrap, Close.
  quiet_steps.
Qed.

(** What [logRequestDump] adds to the trace. *)
Lemma logRequestDump_trace (c : Client) (req : http.Request) (s : State) :
  exists pre : list Event,
    logRequestDump W c req s =
      (tt, mkState (next s) (trace s ++ pre)%list) /\
    Forall (request_dump_event W c req) pre.
Proof.
  unfold logRequestDump, dumpRequestOut, request_dump_event.
  destruct (requestDumpLogger c) as [logger|] eqn:L.
  - unfold bind, emit, ret; simpl.
    destruct (httputil_DumpRequestOut W req (dumpRequestBody c))
      as [dump [e|]] eqn:D; simpl.
    + exists [EvDumpRequestOut req (dumpRequestBody c)].
      split; [reflexivity|]. repeat constructor.
    + exists [EvDumpRequestOut req (dumpRequestBody c); EvLogger logger dump].
      split; [now rewrite <- app_assoc|].
      constructor; [now left|].
      constructor; [|constructor].
      right. exists logger. split; reflexivity.
  - exists []. rewrite app_nil_r. destruct s; split; [reflexivity|constructor].
Qed.

(** C9, on the code: whatever the client, [sendRequest] calls a dump
    logger only before the send, and only with the dump of the request;
    after the send no logger is called, so no dump of the response ever
    reaches a logger. *)
Theorem no_logger_call_after_send (c : Client) (req : http.Request)
    (v : option ptr) (s : State) :
  exists pre post : list Event,
    trace (snd (sendRequest W c req v s)) =
      (trace s ++ pre ++ EvDo (retryablehttp.mkRequest req) :: post)%list /\
    Forall (request_dump_event W c req) pre /\
    existsb isLogger post = false.
Proof.
  destruct (logRequestDump_trace c req s) as (pre & Elog & Hpre).
  set (rreq := retryablehttp.mkRequest req).
  set (out := retryablehttp_Do W (retryableHttpClient c) rreq).
  assert (Q : quiet
    (err1 <- handleUnsuccessfulResponse (http.URL req) (fst out) (snd out) ;;
     match err1 with
     | Some _ => ret (fst out, err1)
     | None =>
         err2 <- decodeResponse W (http.URL req) (fst out) v ;;
         match err2 with
         | Some _ => ret (fst out, err2)
         | None => ret (fst out, None)
         end
     end)).
  { apply quiet_bind; [apply quiet_handleUnsuccessfulResponse|].
    intros [e|]; [apply quiet_ret|].
    apply quiet_bind; [apply quiet_decodeResponse|].
    intros [e|]; apply quiet_ret. }
  destruct (Q (mkState (next s) ((trace s ++ pre) ++ [EvDo rreq])))
    as (post & Epost & Hpost).
  exists pre, post. split; [|split; assumption].
  unfold sendRequest, do, retryableHttpClientDo.
  unfold bind at 1. rewrite Elog.
  unfold bind at 1 2 3, emit, ret at 1; simpl.
  fold rreq. fold out. destruct out as [resp err]; simpl in *.
  match goal with
  | |- trace (snd (let (_, _) := ?m in _)) = _ =>
      destruct m as [[resp' [e|]] s'] eqn:E
  end; simpl in *; unfold ret; simpl; rewrite Epost;
    now rewrite <- !app_assoc.
Qed.

End Pipeline.

Section PipelineExamples.

Import httpclient.

Lemma decode_failure_reported_witness :
  retryablehttp_Do (ex_world (Some ex_ok_response) None (Some ex_decode_error))
    None ex_retryable_request = (Some ex_ok_response, None) /\
  fst (handleUnsuccessfulResponse ex_url (Some ex_ok_response) None
         (mkState (next ex_state)
                  (trace ex_state ++ [EvDo ex_retryable_request]))) = None /\
  json_Decode (ex_world (Some ex_ok_response) None (Some ex_decode_error))
    (http.Body ex_ok_response) 5%positive = Some ex_decode_error /\
  fst (do (ex_world (Some ex_ok_response) None (Some ex_decode_error))
          None ex_retryable_request (Some 5%positive) ex_state) =
  (Some ex_ok_response,
   Some (httpErrorPtr 11%positive
           (mkHttpError ex_url 200 ""
              (Some (withStack 10%positive ex_decode_error
                       "decoding response"))))).
Proof.
  split; [reflexivity|]. split; [reflexivity|]. split; [reflexivity|].
  exact (f_equal fst
           (proj1 (decode_failure_reported
                     (ex_world (Some ex_ok_response) None
                               (Some ex_decode_error))
                     None ex_retryable_request ex_ok_response None
                     5%positive ex_decode_error ex_state
                     eq_refl eq_refl eq_refl))).
Defined.

(** The message of the error of the previous example, as the package's
    test of a decoding failure expects it. *)
Example decode_failure_message :
  fmt_v_error
    (snd (fst (do (ex_world (Some ex_ok_response) None
                            (Some (errorString 2%positive "random error")))
                  None ex_retryable_request (Some 5%positive) ex_state))) =
  "request to http://localhost/some/path failed. httpStatus: [ 200 ] responseBody: [  ] error: [ decoding response: random error ]".
Proof. reflexivity. Qed.

(** A client with a dump logger, and a send that is answered with status
    code 200: the logger receives the dump of the request before the send
    and nothing after it. *)
Example sendRequest_trace_with_logger :
  trace (snd (SendRequest
                (ex_world (Some ex_ok_response) None None)
                (WithRequestDumpLogger (Some 7%positive) false zeroClient)
                ex_request ex_state)) =
  [EvDumpRequestOut ex_request false;
   EvLogger 7%positive "POST http://localhost/some/path";
   EvDo ex_retryable_request].
Proof. reflexivity. Qed.

End PipelineExamples.

(** ** The configuration of the client *)

Section Options.

Import httpclient.

Lemma keepsPolicy_WithHttpClient (hc : option http.Client) :
  keepsPolicy (WithHttpClient hc).
Proof. intros c; reflexivity. Qed.

Lemma keepsPolicy_WithTimeout (t : Z) : keepsPolicy (WithTimeout t).
Proof. intros c; reflexivity. Qed.

Lemma keepsPolicy_WithMaxIdleConns (n : Z) : keepsPolicy (WithMaxIdleConns n).
Proof. intros c; reflexivity. Qed.

Lemma keepsPolicy_WithMaxIdleConnsPerHost (n : Z) :
  keepsPolicy (WithMaxIdleConnsPerHost n).
Proof. intros c; reflexivity. Qed.

Lemma keepsPolicy_WithMaxConnsPerHost (n : Z) :
  keepsPolicy (WithMaxConnsPerHost n).
Proof. intros c; reflexivity. Qed.

Lemma keepsPolicy_WithMaxRetries (n : Z) : keepsPolicy (WithMaxRetries n).
Proof. intros c; reflexivity. Qed.

Lemma keepsPolicy_WithRetryWaitMin (n : Z) : keepsPolicy (WithRetryWaitMin n).
Proof. intros c; reflexivity. Qed.

Lemma keepsPolicy_WithRetryWaitMax (n : Z) : keepsPolicy (WithRetryWaitMax n).
Proof. intros c; reflexivity. Qed.

Lemma keepsPolicy_WithRequestDumpLogger (f : option DumpLogger) (b : bool) :
  keepsPolicy (WithRequestDumpLogger f b).
Proof. intros c; reflexivity. Qed.

(** Passing a nil policy is supplying none. *)
Lemma keepsPolicy_nil_policy_on_new :
  checkRetryPolicy (WithCheckRetryPolicy None zeroClient) = None.
Proof. reflexivity. Qed.

End Options.

Create HintDb options.
#[global] Hint Resolve keepsPolicy_WithHttpClient keepsPolicy_WithTimeout
  keepsPolicy_WithMaxIdleConns keepsPolicy_WithMaxIdleConnsPerHost
  keepsPolicy_WithMaxConnsPerHost keepsPolicy_WithMaxRetries
  keepsPolicy_WithRetryWaitMin keepsPolicy_WithRetryWaitMax
  keepsPolicy_WithRequestDumpLogger : options.

Section Configuration.

Import httpclient.

Lemma fold_keepsPolicy (options : list Option) (c : Client) :
  Forall keepsPolicy options ->
  checkRetryPolicy (fold_left (fun client option => option client) options c) =
  checkRetryPolicy c.
Proof.
  intros H; revert c.
  induction H as [|o options Ho _ IH]; intros c; simpl; [reflexivity|].
  now rewrite IH, Ho.
Qed.

Variable W : World.

(** [New] never panics, and installs the policy of the options, or
    [doNotRetryPolicy] when they hold none. *)
Lemma New_installedPolicy (options : list Option) :
  installedPolicy (New W options) =
  Some (match checkRetryPolicy (newClient options) with
        | Some policy => policy
        | None => doNotRetryPolicy
        end).
Proof.
  unfold New, patchTransport.
  set (c0 := newClient options).
  destruct c0 as [hc rc t mi mih mc mr pol wmin wmax lg db]; simpl.
  destruct hc as [[tr tmo]|]; simpl.
  - destruct tr as [[tp|cp]|]; simpl; destruct pol; reflexivity.
  - destruct pol; reflexivity.
Qed.

(** C6: with options that hold no retry policy, the predicate installed by
    [New] is [doNotRetryPolicy], which answers [(false, nil)] whatever it is
    given; with a policy among the options, [New] installs that policy. *)
Theorem default_policy_never_retries (before after : list Option)
    (policy : retryablehttp.CheckRetry) :
  Forall keepsPolicy before ->
  Forall keepsPolicy after ->
  installedPolicy (New W before) = Some doNotRetryPolicy /\
  (forall ctx resp err, doNotRetryPolicy ctx resp err = (false, None)) /\
  installedPolicy
    (New W (before ++ WithCheckRetryPolicy (Some policy) :: after)) =
  Some policy.
Proof.
  intros Hb Ha. rewrite !New_installedPolicy. unfold newClient.
  rewrite fold_left_app; simpl.
  rewrite !fold_keepsPolicy by assumption; simpl.
  repeat split.
Qed.

End Configuration.

Section ConfigurationExamples.

Import httpclient.

Lemma default_policy_never_retries_witness :
  installedPolicy
    (New (ex_world None None None) [WithTimeout 30; WithMaxRetries 5]) =
  Some doNotRetryPolicy /\
  installedPolicy
    (New (ex_world None None None)
         ([WithTimeout 30; WithMaxRetries 5] ++
          WithCheckRetryPolicy (Some policies.Eof) ::
          [WithRequestDumpLogger (Some 7%positive) false])) =
  Some policies.Eof.
Proof.
  assert (Hb : Forall keepsPolicy [WithTimeout 30; WithMaxRetries 5]).
  { repeat constructor; auto with options. }
  assert (Ha : Forall keepsPolicy
                 [WithRequestDumpLogger (Some 7%positive) false]).
  { repeat constructor; auto with options. }
  destruct (default_policy_never_retries (ex_world None None None)
              [WithTimeout 30; WithMaxRetries 5]
              [WithRequestDumpLogger (Some 7%positive) false]
              policies.Eof Hb Ha) as (H1 & _ & H2).
  split; [exact H1 | exact H2].
Defined.

(** The policies of package [policies]. *)
Example DoNotRetry_never (ctx : Context) (resp : option http.Response)
    (err : option error) :
  policies.DoNotRetry ctx resp err = (false, None).
Proof. reflexivity. Qed.

Example Eof_on_EOF :
  policies.Eof ctxTODO None
    (Some (errorString 1%positive "blablabla EOF blablabla")) =
  (true, Some (errorString 1%positive "blablabla EOF blablabla")).
Proof. reflexivity. Qed.

End ConfigurationExamples.


(** ** More on the classification *)

Section ClassificationCases.

Import httpclient.

(** The outcome of the classification, case by case. *)
Lemma handleUnsuccessfulResponse_cases (url : string)
    (resp : option http.Response) (receivedError : option error) (s : State) :
  handleUnsuccessfulResponse url resp receivedError s =
  let otherwise :=
    match receivedError with
    | Some _ =>
        (Some (httpErrorPtr (next s) (mkHttpError url 0 "" receivedError)),
         mkState (Pos.succ (next s)) (trace s))
    | None => (None, s)
    end in
  match resp with
  | Some r =>
      if http.StatusCode r >=? http.StatusBadRequest then
        let t := (trace s ++
                  [EvReadAll (http.Body r); EvClose (http.Body r)])%list in
        match failure (http.Body r) with
        | Some readErr =>
            (Some (httpErrorPtr (next s)
                     (mkHttpError url (http.StatusCode r) ""
                        (Some (withStack (Pos.succ (next s)) readErr
                                 "parsing response")))),
             mkState (Pos.succ (Pos.succ (next s))) t)
        | None =>
            (Some (httpErrorPtr (next s)
                     (mkHttpError url (http.StatusCode r)
                        (content (http.Body r)) receivedError)),
             mkState (Pos.succ (next s)) t)
        end
      else otherwise
  | None => otherwise
  end.
Proof.
  unfold handleUnsuccessfulResponse, ioReadAll, errors.Wrap, Close,
    bind, ret, new, emit.
  destruct resp as [r|]; simpl.
  - destruct (http.StatusCode r >=? http.StatusBadRequest); simpl.
    + rewrite ReadAll_content_failure.
      destruct (failure (http.Body r)); simpl; now rewrite <- app_assoc.
    + destruct receivedError; destruct s; reflexivity.
  - destruct receivedError; destruct s; reflexivity.
Qed.

Lemma classification_passes_state_any (url : string)
    (resp : option http.Response) (receivedError : option error) (s : State) :
  fst (handleUnsuccessfulResponse url resp receivedError s) = None ->
  snd (handleUnsuccessfulResponse url resp receivedError s) = s.
Proof.
  rewrite handleUnsuccessfulResponse_cases.
  destruct resp as [r|]; simpl.
  - destruct (http.StatusCode r >=? http.StatusBadRequest).
    + destruct (failure (http.Body r)); discriminate.
    + destruct receivedError; [discriminate | reflexivity].
  - destruct receivedError; [discriminate | reflexivity].
Qed.

(** The classification returns no error exactly when no error was received
    and there is no response or its status code is below 400; it then
    leaves the body unread and allocates nothing. *)
Theorem classification_passes_exactly (url : string)
    (resp : option http.Response) (receivedError : option error) (s : State) :
  (fst (handleUnsuccessfulResponse url resp receivedError s) = None <->
   receivedError = None /\
   forall r, resp = Some r -> http.StatusCode r < 400) /\
  (fst (handleUnsuccessfulResponse url resp receivedError s) = None ->
   handleUnsuccessfulResponse url resp receivedError s = (None, s)).
Proof.
  rewrite handleUnsuccessfulResponse_cases.
  destruct resp as [r|]; simpl.
  - destruct (http.StatusCode r >=? http.StatusBadRequest) eqn:E.
    + apply StatusCode_geb in E.
      destruct (failure (http.Body r)); simpl; (split; [split|]);
        try discriminate; intros [_ H]; specialize (H r eq_refl); lia.
    + apply StatusCode_geb_false in E.
      destruct receivedError; simpl; (split; [split|]);
        try discriminate; try tauto.
      * intros [? _]; discriminate.
      * intros _. split; [reflexivity|]. intros r' [= <-]. exact E.
  - destruct receivedError; simpl; (split; [split|]);
      try discriminate; try tauto.
    + intros [? _]; discriminate.
    + intros _. split; [reflexivity|]. intros r' [=].
Qed.

(** Every error the classification returns is an HttpError for the URL
    given, allocated by the call; its status code is 0 (with an empty body,
    around the received error) or the status code, 400 or more, of the
    response. *)
Theorem classification_error_shape (url : string)
    (resp : option http.Response) (receivedError : option error) (s : State)
    (e : error) :
  fst (handleUnsuccessfulResponse url resp receivedError s) = Some e ->
  exists h : HttpError,
    e = httpErrorPtr (next s) h /\
    Url h = url /\
    ((StatusCode h = 0 /\ Body h = "" /\ Err h = receivedError /\
      receivedError <> None) \/
     (exists r, resp = Some r /\ StatusCode h = http.StatusCode r /\
                http.StatusCode r >= 400)).
Proof.
  rewrite handleUnsuccessfulResponse_cases.
  assert (Tail :
    fst (match receivedError with
         | Some _ =>
             (Some (httpErrorPtr (next s)
                      (mkHttpError url 0 "" receivedError)),
              mkState (Pos.succ (next s)) (trace s))
         | None => (None, s)
         end) = Some e ->
    exists h : HttpError,
      e = httpErrorPtr (next s) h /\ Url h = url /\
      ((StatusCode h = 0 /\ Body h = "" /\ Err h = receivedError /\
        receivedError <> None) \/
       (exists r, resp = Some r /\ StatusCode h = http.StatusCode r /\
                  http.StatusCode r >= 400))).
  { destruct receivedError as [e0|]; simpl; [|discriminate].
    intros [= <-]. eexists; split; [reflexivity|]. split; [reflexivity|].
    left. repeat split. discriminate. }
  destruct resp as [r|]; simpl; [|exact Tail].
  destruct (http.StatusCode r >=? http.StatusBadRequest) eqn:E; [|exact Tail].
  apply StatusCode_geb in E.
  destruct (failure (http.Body r)); simpl; intros [= <-];
    (eexists; split; [reflexivity|]; split; [reflexivity|]);
    right; exists r; auto.
Qed.

(** The classification reads the body and then closes it, once each,
    when the status code is 400 or more, whether the read fails or not; it
    does not touch the body of a response of a lower status code. *)
Theorem classification_body_events (url : string) (r : http.Response)
    (receivedError : option error) (s : State) :
  (http.StatusCode r >= 400 ->
   trace (snd (handleUnsuccessfulResponse url (Some r) receivedError s)) =
   (trace s ++ [EvReadAll (http.Body r); EvClose (http.Body r)])%list) /\
  (http.StatusCode r < 400 ->
   trace (snd (handleUnsuccessfulResponse url (Some r) receivedError s)) =
   trace s).
Proof.
  rewrite handleUnsuccessfulResponse_cases; simpl.
  split; intros H.
  - apply StatusCode_geb in H. rewrite H.
    destruct (failure (http.Body r)); reflexivity.
  - apply StatusCode_geb_false in H. rewrite H.
    destruct receivedError; reflexivity.
Qed.

End ClassificationCases.

Section ClassificationCasesExamples.

Import httpclient.

Lemma classification_error_shape_witness :
  exists h : HttpError,
    httpErrorPtr 10%positive
      (mkHttpError ex_url 500 "some random error" None) =
    httpErrorPtr (next ex_state) h /\
    Url h = ex_url /\
    ((StatusCode h = 0 /\ Body h = "" /\ Err h = None /\
      @None error <> None) \/
     (exists r, Some ex_error_response = Some r /\
                StatusCode h = http.StatusCode r /\
                http.StatusCode r >= 400)).
Proof.
  exact (classification_error_shape ex_url (Some ex_error_response) None
           ex_state
           (httpErrorPtr 10%positive
              (mkHttpError ex_url 500 "some random error" None))
           eq_refl).
Defined.

Lemma classification_passes_exactly_witness :
  handleUnsuccessfulResponse ex_url (Some ex_ok_response) None ex_state =
  (None, ex_state).
Proof.
  exact (proj2 (classification_passes_exactly ex_url (Some ex_ok_response)
                  None ex_state) eq_refl).
Defined.

Lemma classification_body_events_witness :
  http.StatusCode ex_broken_response >= 400 /\
  trace (snd (handleUnsuccessfulResponse ex_url (Some ex_broken_response)
                None ex_state)) =
  [EvReadAll (http.Body ex_broken_response);
   EvClose (http.Body ex_broken_response)].
Proof.
  assert (H : http.StatusCode ex_broken_response >= 400) by (simpl; lia).
  split; [exact H|].
  exact (proj1 (classification_body_events ex_url ex_broken_response None
                  ex_state) H).
Defined.

End ClassificationCasesExamples.

(** ** More on the dispatch pipeline *)

Section PipelineCases.

Import httpclient.

Variable W : World.

(** What [decodeResponse] does, case by case. *)
Lemma decodeResponse_cases (url : string) (resp : option http.Response)
    (v : option ptr) (s : State) :
  decodeResponse W url resp v s =
  match v, resp with
  | Some data, Some r =>
      let t := (trace s ++
                [EvJsonDecode (http.Body r) data; EvClose (http.Body r)])%list in
      match json_Decode W (http.Body r) data with
      | Some decodeErr =>
          (Some (httpErrorPtr (Pos.succ (next s))
                   (mkHttpError url (http.StatusCode r) ""
                      (Some (withStack (next s) decodeErr
                               "decoding response")))),
           mkState (Pos.succ (Pos.succ (next s))) t)
      | None => (None, mkState (next s) t)
      end
  | _, _ => (None, s)
  end.
Proof.
  unfold decodeResponse, jsonDecode, errors.Wrap, Close, bind, ret, new, emit.
  destruct v as [data|], resp as [r|]; simpl; try reflexivity.
  destruct (json_Decode W (http.Body r) data); simpl;
    now rewrite <- app_assoc.
Qed.

(** [do] as the send, the classification and, when that passes, the
    decoding. *)
Lemma do_cases (c : option retryablehttp.Client)
    (req : retryablehttp.Request) (v : option ptr) (s : State) :
  do W c req v s =
  match fst (handleUnsuccessfulResponse
               (http.URL (retryablehttp.Request_ req))
               (fst (retryablehttp_Do W c req))
               (snd (retryablehttp_Do W c req))
               (mkState (next s) (trace s ++ [EvDo req]))) with
  | Some e =>
      ((fst (retryablehttp_Do W c req), Some e),
       snd (handleUnsuccessfulResponse
              (http.URL (retryablehttp.Request_ req))
              (fst (retryablehttp_Do W c req))
              (snd (retryablehttp_Do W c req))
              (mkState (next s) (trace s ++ [EvDo req]))))
  | None =>
      ((fst (retryablehttp_Do W c req),
        fst (decodeResponse W (http.URL (retryablehttp.Request_ req))
               (fst (retryablehttp_Do W c req)) v
               (mkState (next s) (trace s ++ [EvDo req])))),
       snd (decodeResponse W (http.URL (retryablehttp.Request_ req))
              (fst (retryablehttp_Do W c req)) v
              (mkState (next s) (trace s ++ [EvDo req]))))
  end.
Proof.
  unfold do, retryableHttpClientDo.
  unfold bind at 1 2, emit, ret at 1; simpl.
  destruct (retryablehttp_Do W c req) as [resp err]; simpl.
  unfold bind at 1.
  pose proof (classification_passes_state_any
                (http.URL (retryablehttp.Request_ req)) resp err
                (mkState (next s) (trace s ++ [EvDo req]))) as P.
  destruct (handleUnsuccessfulResponse
              (http.URL (retryablehttp.Request_ req)) resp err
              (mkState (next s) (trace s ++ [EvDo req]))) as [[e|] s2];
    simpl in *; [reflexivity|].
  rewrite (P eq_refl).
  unfold bind.
  destruct (decodeResponse W (http.URL (retryablehttp.Request_ req)) resp v
              (mkState (next s) (trace s ++ [EvDo req]))) as [[e|] s3];
    reflexivity.
Qed.

(** [sendRequest] is [do] run after the dump of the request. *)
Lemma sendRequest_cases (c : Client) (req : http.Request) (v : option ptr)
    (s : State) :
  sendRequest W c req v s =
  do W (retryableHttpClient c) (retryablehttp.mkRequest req) v
     (snd (logRequestDump W c req s)).
Proof.
  unfold sendRequest. unfold bind at 1.
  destruct (logRequestDump W c req s) as [[] s1]; simpl.
  unfold bind.
  destruct (do W (retryableHttpClient c) (retryablehttp.mkRequest req) v s1)
    as [[resp [e|]] s2]; reflexivity.
Qed.

(** [do] always returns the response the sender returned, and its error
    is nil or an HttpError for the URL of the request: an error of the
    sender or of the decoder never reaches the caller bare. *)
Theorem do_outcome_shape (c : option retryablehttp.Client)
    (req : retryablehttp.Request) (v : option ptr) (s : State) :
  fst (fst (do W c req v s)) = fst (retryablehttp_Do W c req) /\
  (snd (fst (do W c req v s)) = None \/
   exists (p : ptr) (h : HttpError),
     snd (fst (do W c req v s)) = Some (httpErrorPtr p h) /\
     Url h = http.URL (retryablehttp.Request_ req)).
Proof.
  rewrite do_cases, handleUnsuccessfulResponse_cases, decodeResponse_cases.
  destruct (retryablehttp_Do W c req) as [[r|] [e|]]; simpl;
    repeat match goal with
      | |- context [if ?b then _ else _] => destruct b; simpl
      | |- context [match failure ?x with _ => _ end] =>
          destruct (failure x); simpl
      | |- context [match json_Decode ?w ?x ?y with _ => _ end] =>
          destruct (json_Decode w x y); simpl
      | |- context [match v with _ => _ end] => destruct v; simpl
      end;
    (split; [reflexivity|]);
    first [left; reflexivity | right; eexists; eexists; split; reflexivity].
Qed.


(** A response of status code 400 or more is never decoded, with or
    without destination: after the send, [do] only reads the body and
    closes it. *)
Theorem error_status_never_decoded (c : option retryablehttp.Client)
    (req : retryablehttp.Request) (v : option ptr) (s : State)
    (r : http.Response) (err : option error) :
  retryablehttp_Do W c req = (Some r, err) ->
  http.StatusCode r >= 400 ->
  trace (snd (do W c req v s)) =
  (trace s ++
   [EvDo req; EvReadAll (http.Body r); EvClose (http.Body r)])%list.
Proof.
  intros Hdo Hst. apply StatusCode_geb in Hst.
  rewrite do_cases, handleUnsuccessfulResponse_cases, Hdo; simpl.
  rewrite Hst.
  destruct (failure (http.Body r)); simpl; now rewrite <- app_assoc.
Qed.

(** [SendRequest] on success: with a response of status code below 400
    and no error, the response is returned with a nil error, and after the
    dump of the request the only event is the send: the body is left
    unread and open, for the caller. *)
Theorem SendRequest_success_leaves_body (cl : Client) (req : http.Request)
    (s : State) (r : http.Response) :
  retryablehttp_Do W (retryableHttpClient cl) (retryablehttp.mkRequest req) =
    (Some r, None) ->
  http.StatusCode r < 400 ->
  exists pre : list Event,
    SendRequest W cl req s =
      ((Some r, None),
       mkState (next s)
         (trace s ++ pre ++ [EvDo (retryablehttp.mkRequest req)])%list) /\
    Forall (request_dump_event W cl req) pre.
Proof.
  intros Hdo Hst. apply StatusCode_geb_false in Hst.
  destruct (logRequestDump_trace W cl req s) as (pre & Elog & Hpre).
  exists pre. split; [|exact Hpre].
  unfold SendRequest.
  rewrite sendRequest_cases, Elog, do_cases, handleUnsuccessfulResponse_cases,
    decodeResponse_cases, Hdo; simpl.
  rewrite Hst; simpl. now rewrite <- app_assoc.
Qed.

(** [SendRequestAndUnmarshallJsonResponse] on success: with a response of
    status code below 400, no error and a decoder that succeeds, the
    response is returned with a nil error, the body having been decoded
    into the destination and then closed; nothing is allocated. *)
Theorem SendRequestAndUnmarshall_success (cl : Client) (req : http.Request)
    (data : ptr) (s : State) (r : http.Response) :
  retryablehttp_Do W (retryableHttpClient cl) (retryablehttp.mkRequest req) =
    (Some r, None) ->
  http.StatusCode r < 400 ->
  json_Decode W (http.Body r) data = None ->
  exists pre : list Event,
    SendRequestAndUnmarshallJsonResponse W cl req (Some data) s =
      ((Some r, None),
       mkState (next s)
         (trace s ++ pre ++
          [EvDo (retryablehttp.mkRequest req);
           EvJsonDecode (http.Body r) data; EvClose (http.Body r)])%list) /\
    Forall (request_dump_event W cl req) pre.
Proof.
  intros Hdo Hst Hdec. apply StatusCode_geb_false in Hst.
  destruct (logRequestDump_trace W cl req s) as (pre & Elog & Hpre).
  exists pre. split; [|exact Hpre].
  unfold SendRequestAndUnmarshallJsonResponse.
  rewrite sendRequest_cases, Elog, do_cases, handleUnsuccessfulResponse_cases,
    decodeResponse_cases, Hdo; simpl.
  rewrite Hst; simpl. rewrite Hdec; simpl. now rewrite <- !app_assoc.
Qed.


(** A failure of the request dumper is swallowed: the logger is not
    called, in the whole of [sendRequest], and the send goes ahead. *)
Theorem dump_failure_swallowed (cl : Client) (req : http.Request)
    (v : option ptr) (s : State) (logger : DumpLogger) (dump : string)
    (dumpErr : error) :
  requestDumpLogger cl = Some logger ->
  httputil_DumpRequestOut W req (dumpRequestBody cl) = (dump, Some dumpErr) ->
  exists post : list Event,
    trace (snd (sendRequest W cl req v s)) =
      (trace s ++
       EvDumpRequestOut req (dumpRequestBody cl) ::
       EvDo (retryablehttp.mkRequest req) :: post)%list /\
    existsb isLogger post = false.
Proof.
  intros Hlog Hdump.
  assert (Elog : logRequestDump W cl req s =
                 (tt, mkState (next s)
                        (trace s ++
                         [EvDumpRequestOut req (dumpRequestBody cl)]))).
  { unfold logRequestDump, dumpRequestOut, bind, emit, ret.
    rewrite Hlog; simpl. now rewrite Hdump. }
  rewrite sendRequest_cases, Elog; simpl.
  rewrite do_cases, handleUnsuccessfulResponse_cases, decodeResponse_cases.
  destruct (retryablehttp_Do W (retryableHttpClient cl)
              (retryablehttp.mkRequest req)) as [[r|] [e|]]; simpl;
    repeat match goal with
      | |- context [if ?b then _ else _] => destruct b; simpl
      | |- context [match failure ?x with _ => _ end] =>
          destruct (failure x); simpl
      | |- context [match json_Decode ?w ?x ?y with _ => _ end] =>
          destruct (json_Decode w x y); simpl
      | |- context [match v with _ => _ end] => destruct v; simpl
      end;
    rewrite <- ?app_assoc; simpl;
    eexists; (split; [reflexivity|]); reflexivity.
Qed.

End PipelineCases.

Section PipelineCasesExamples.

Import httpclient.

Lemma error_status_never_decoded_witness :
  trace (snd (do (ex_world (Some ex_error_response) None None) None
                 ex_retryable_request (Some 5%positive) ex_state)) =
  [EvDo ex_retryable_request; EvReadAll (http.Body ex_error_response);
   EvClose (http.Body ex_error_response)].
Proof.
  exact (error_status_never_decoded
           (ex_world (Some ex_error_response) None None) None
           ex_retryable_request (Some 5%positive) ex_state ex_error_response
           None eq_refl ltac:(simpl; lia)).
Defined.

Lemma SendRequest_success_leaves_body_witness :
  exists pre : list Event,
    SendRequest (ex_world (Some ex_ok_response) None None) ex_logging_client
      ex_request ex_state =
      ((Some ex_ok_response, None),
       mkState (next ex_state)
         (trace ex_state ++ pre ++ [EvDo ex_retryable_request])%list) /\
    Forall (request_dump_event (ex_world (Some ex_ok_response) None None)
              ex_logging_client ex_request) pre.
Proof.
  exact (SendRequest_success_leaves_body
           (ex_world (Some ex_ok_response) None None) ex_logging_client
           ex_request ex_state ex_ok_response eq_refl eq_refl).
Defined.

Lemma SendRequestAndUnmarshall_success_witness :
  exists pre : list Event,
    SendRequestAndUnmarshallJsonResponse
      (ex_world (Some ex_ok_response) None None) ex_logging_client
      ex_request (Some 5%positive) ex_state =
      ((Some ex_ok_response, None),
       mkState (next ex_state)
         (trace ex_state ++ pre ++
          [EvDo ex_retryable_request;
           EvJsonDecode (http.Body ex_ok_response) 5%positive;
           EvClose (http.Body ex_ok_response)])%list) /\
    Forall (request_dump_event (ex_world (Some ex_ok_response) None None)
              ex_logging_client ex_request) pre.
Proof.
  exact (SendRequestAndUnmarshall_success
           (ex_world (Some ex_ok_response) None None) ex_logging_client
           ex_request 5%positive ex_state ex_ok_response
           eq_refl eq_refl eq_refl).
Defined.

Lemma dump_failure_swallowed_witness :
  exists post : list Event,
    trace (snd (sendRequest
                  (ex_world_dump_failure (Some ex_ok_response) None None)
                  ex_logging_client ex_request None ex_state)) =
      (trace ex_state ++
       EvDumpRequestOut ex_request (dumpRequestBody ex_logging_client) ::
       EvDo (retryablehttp.mkRequest ex_request) :: post)%list /\
    existsb isLogger post = false.
Proof.
  exact (dump_failure_swallowed
           (ex_world_dump_failure (Some ex_ok_response) None None)
           ex_logging_client ex_request None ex_state 7%positive ""
           (errorString 6%positive "dump failed") eq_refl eq_refl).
Defined.

End PipelineCasesExamples.

(** ** More on the configuration *)

Section Construction.

Import httpclient.

Variable W : World.

(** The HTTP client of a client with a custom round tripper is left as it
    is by [New]: the connection options are not applied, and nothing is
    reported. *)
Theorem New_keeps_custom_transport (options : list Option)
    (hc : http.Client) (p : ptr) :
  httpClient (newClient options) = Some hc ->
  http.RoundTrip hc = Some (http.customRoundTripper p) ->
  exists c, New W options = Some c /\ httpClient c = Some hc.
Proof.
  unfold New, patchTransport, patchRetryableClient.
  destruct (newClient options) as [h rc t mi mih mc mr pol wmin wmax lg db].
  simpl. intros -> Htr. destruct hc as [tr tmo]; simpl in *. subst tr.
  simpl. eexists; split; reflexivity.
Qed.

(** In every other case, without HTTP client or with one whose transport
    is nil or a [http.Transport], the transport after [New] has exactly the
    three connection limits of the options (0 for an option not given),
    whatever limits the default transport or the caller's transport had. *)
Theorem New_patches_transport (options : list Option) :
  (forall hc p, httpClient (newClient options) = Some hc ->
                http.RoundTrip hc <> Some (http.customRoundTripper p)) ->
  exists c hc',
    New W options = Some c /\ httpClient c = Some hc' /\
    http.RoundTrip hc' = Some (patchedTransport (newClient options)).
Proof.
  unfold New, patchTransport, patchRetryableClient, patchedTransport.
  destruct (newClient options) as [h rc t mi mih mc mr pol wmin wmax lg db].
  simpl. intros H.
  destruct h as [[[[tp|cp]|] tmo]|]; simpl.
  - eexists; eexists; repeat split.
  - exfalso. exact (H _ cp eq_refl eq_refl).
  - eexists; eexists; repeat split.
  - eexists; eexists; repeat split.
Qed.


(** The sender of a client made by [New] has the retry count and the
    waits of the options (0 for an option not given, whatever the defaults
    of the sender library), and sends through the HTTP client of the
    client; the options themselves are kept in the client. *)
Theorem New_sender_parameters (options : list Option) :
  exists c rc,
    New W options = Some c /\ retryableHttpClient c = Some rc /\
    retryablehttp.RetryMax rc = maxRetries (newClient options) /\
    retryablehttp.RetryWaitMin rc = retryWaitMin (newClient options) /\
    retryablehttp.RetryWaitMax rc = retryWaitMax (newClient options) /\
    retryablehttp.HTTPClient rc = httpClient c /\
    httpClient c <> None /\
    requestDumpLogger c = requestDumpLogger (newClient options) /\
    dumpRequestBody c = dumpRequestBody (newClient options).
Proof.
  unfold New, patchTransport, patchRetryableClient.
  destruct (newClient options) as [h rc t mi mih mc mr pol wmin wmax lg db].
  simpl.
  destruct h as [[[[tp|cp]|] tmo]|]; simpl;
    eexists; eexists; repeat split; discriminate.
Qed.

End Construction.

Section OptionCalls.

Import httpclient.

(** Options of different option functions commute: the order in which
    they are given to [New] does not matter. *)
Theorem options_commute (a b : OptionCall) (c : Client) :
  optionKind a <> optionKind b ->
  toOption a (toOption b c) = toOption b (toOption a c).
Proof.
  intros H.
  destruct a, b; simpl in H; try (exfalso; apply H; reflexivity);
    reflexivity.
Qed.

(** Of two options of the same option function, the later one wins. *)
Theorem option_given_twice (a b : OptionCall) (c : Client) :
  optionKind a = optionKind b ->
  toOption a (toOption b c) = toOption a c.
Proof.
  intros H. destruct a, b; simpl in H; try discriminate H; reflexivity.
Qed.

Lemma options_commute_witness :
  WithTimeout 30 (WithCheckRetryPolicy (Some policies.Eof) zeroClient) =
  WithCheckRetryPolicy (Some policies.Eof) (WithTimeout 30 zeroClient).
Proof.
  exact (options_commute (CallWithTimeout 30)
           (CallWithCheckRetryPolicy (Some policies.Eof)) zeroClient
           ltac:(simpl; discriminate)).
Defined.

Lemma option_given_twice_witness :
  WithCheckRetryPolicy None
    (WithCheckRetryPolicy (Some policies.Eof) zeroClient) =
  WithCheckRetryPolicy None zeroClient.
Proof.
  exact (option_given_twice (CallWithCheckRetryPolicy None)
           (CallWithCheckRetryPolicy (Some policies.Eof)) zeroClient eq_refl).
Defined.

Lemma New_keeps_custom_transport_witness :
  exists c,
    New (ex_world None None None)
        [WithHttpClient (Some ex_custom_http_client); WithMaxIdleConns 200] =
    Some c /\
    httpClient c = Some ex_custom_http_client.
Proof.
  exact (New_keeps_custom_transport (ex_world None None None)
           [WithHttpClient (Some ex_custom_http_client); WithMaxIdleConns 200]
           ex_custom_http_client 9%positive eq_refl eq_refl).
Defined.

Lemma New_patches_transport_witness :
  exists c hc',
    New (ex_world None None None)
        [WithMaxConnsPerHost 200; WithMaxIdleConnsPerHost 200] = Some c /\
    httpClient c = Some hc' /\
    http.RoundTrip hc' =
    Some (http.transportPtr (http.mkTransport 0 200 200)).
Proof.
  exact (New_patches_transport (ex_world None None None)
           [WithMaxConnsPerHost 200; WithMaxIdleConnsPerHost 200]
           ltac:(intros hc p H; discriminate H)).
Defined.

End OptionCalls.

(** ** More on the error model and the retry policies *)

Section Matching.

Import httpclient.

Lemma string_app_assoc (a b c : string) : (a ++ b) ++ c = a ++ b ++ c.
Proof. induction a as [|x a IH]; simpl; [reflexivity | now rewrite IH]. Qed.

Lemma string_app_nil_r (a : string) : a ++ "" = a.
Proof. induction a as [|x a IH]; simpl; [reflexivity | now rewrite IH]. Qed.

Lemma substring_refl (s : string) : substring s s.
Proof. exists "", "". simpl. now rewrite string_app_nil_r. Qed.

Lemma substring_trans (a b c : string) :
  substring a b -> substring b c -> substring a c.
Proof.
  intros (x & y & ->) (u & w & ->).
  exists (u ++ x), (y ++ w).
  now rewrite !string_app_assoc.
Qed.

Lemma substring_empty (s : string) : substring s "" -> s = "".
Proof.
  intros (a & b & H). destruct a; [|discriminate].
  destruct s; [reflexivity | discriminate].
Qed.

(** [Is] is reflexive: every HttpError matches itself, at whatever
    address the target is. *)
Theorem Is_reflexive (e : HttpError) (p : ptr) :
  Is e (Some (httpErrorPtr p e)) = true.
Proof.
  apply Is_iff. split; [left; reflexivity|].
  split; [left; apply substring_refl | reflexivity].
Qed.

(** [Is] is transitive: when [e] matches [t] and [t] matches [u], then [e]
    matches [u]. *)
Theorem Is_transitive (e t u : HttpError) (p q : ptr) :
  Is e (Some (httpErrorPtr p t)) = true ->
  Is t (Some (httpErrorPtr q u)) = true ->
  Is e (Some (httpErrorPtr q u)) = true.
Proof.
  rewrite !Is_iff.
  intros (S1 & B1 & E1) (S2 & B2 & E2).
  split; [|split].
  - destruct S2 as [S2|S2]; [|right; exact S2].
    destruct S1 as [S1|S1]; [left | right]; congruence.
  - destruct B2 as [B2|B2]; [|right; exact B2].
    destruct B1 as [B1|B1].
    + left. exact (substring_trans _ _ _ B2 B1).
    + right. rewrite B1 in B2. exact (substring_empty _ B2).
  - unfold errors_identical in *. congruence.
Qed.

Lemma Is_transitive_witness :
  Is (mkHttpError ex_url 500 "some random error" None)
     (Some (httpErrorPtr 2%positive (mkHttpError "" 0 "" None))) = true.
Proof.
  exact (Is_transitive (mkHttpError ex_url 500 "some random error" None)
           (mkHttpError "" 500 "random" None) (mkHttpError "" 0 "" None)
           1%positive 2%positive eq_refl eq_refl).
Defined.

(** The policy [Eof] asks for a retry exactly when there is an error whose
    message contains [EOF], and always hands back the error it was given;
    the response and the context play no part. *)
Theorem Eof_retries_exactly (ctx : Context) (resp : option http.Response)
    (err : option error) :
  (fst (policies.Eof ctx resp err) = true <->
   exists e, err = Some e /\ substring "EOF" (error_Error e)) /\
  snd (policies.Eof ctx resp err) = err.
Proof.
  destruct err as [e|]; simpl; (split; [|reflexivity]).
  - rewrite Contains_iff. split.
    + intros H. exists e. split; [reflexivity | exact H].
    + intros (e' & [= <-] & H). exact H.
  - split; [discriminate | intros (e' & [=] & _)].
Qed.

(** Wrapping keeps an error retryable for [Eof]: the message of the
    wrapped error still contains [EOF]. *)
Theorem Eof_survives_Wrap (ctx ctx' : Context)
    (resp resp' : option http.Response) (e : error) (message : string)
    (s : State) :
  fst (policies.Eof ctx resp (Some e)) = true ->
  fst (policies.Eof ctx' resp' (fst (errors.Wrap (Some e) message s))) = true.
Proof.
  simpl. rewrite !Contains_iff. intros (a & b & H).
  exists (message ++ ": " ++ a), b. rewrite H.
  now rewrite !string_app_assoc.
Qed.

Lemma Eof_survives_Wrap_witness :
  fst (policies.Eof ctxTODO None
         (fst (errors.Wrap (Some (errorString 1%positive "unexpected EOF"))
                 "sending" ex_state))) = true.
Proof.
  exact (Eof_survives_Wrap ctxBackground ctxTODO None None
           (errorString 1%positive "unexpected EOF") "sending" ex_state
           eq_refl).
Defined.

End Matching.

Section Messages.

Import httpclient.

(** The message of an HttpError contains its URL, its body and the message
    of its underlying error: a caller that searches the message of the
    error returned by the client finds the text of the cause. *)
Theorem Error_contains_parts (h : HttpError) :
  substring (Url h) (Error h) /\
  substring (Body h) (Error h) /\
  substring (fmt_v_error (Err h)) (Error h).
Proof.
  unfold Error, Sprintf_Error.
  set (st := if StatusCode h >? 0 then strconv.Itoa (StatusCode h)
             else "no status").
  split; [|split].
  - exists "request to ". eexists. reflexivity.
  - exists ("request to " ++ Url h ++ " failed. httpStatus: [ " ++ st ++
            " ] responseBody: [ ").
    eexists. rewrite !string_app_assoc. reflexivity.
  - exists ("request to " ++ Url h ++ " failed. httpStatus: [ " ++ st ++
            " ] responseBody: [ " ++ Body h ++ " ] error: [ ").
    exists " ]". rewrite !string_app_assoc. reflexivity.
Qed.

End Messages.

(** ** Construction of requests (request.go, header.go) *)

Section Headers.

Lemma Header_lookup_store_same (h : Header) (k : string) (vs : list string) :
  Header_lookup (Header_store h k vs) k = Some vs.
Proof.
  induction h as [|[k' vs'] h IH]; simpl.
  - now rewrite String.eqb_refl.
  - destruct (String.eqb k' k) eqn:E; simpl.
    + now rewrite String.eqb_refl.
    + now rewrite E.
Qed.

Lemma Header_lookup_store_other (h : Header) (k k' : string)
    (vs : list string) :
  k' <> k ->
  Header_lookup (Header_store h k vs) k' = Header_lookup h k'.
Proof.
  intros N. induction h as [|[k0 vs0] h IH]; simpl.
  - destruct (String.eqb_spec k k'); [congruence | reflexivity].
  - destruct (String.eqb_spec k0 k) as [->|N0]; simpl.
    + destruct (String.eqb_spec k k'); [congruence | reflexivity].
    + destruct (String.eqb_spec k0 k'); [reflexivity | exact IH].
Qed.

Lemma Header_store_store (h : Header) (k : string) (v1 v2 : list string) :
  Header_store (Header_store h k v1) k v2 = Header_store h k v2.
Proof.
  induction h as [|[k0 vs0] h IH]; simpl.
  - now rewrite String.eqb_refl.
  - destruct (String.eqb k0 k) eqn:E; simpl.
    + now rewrite String.eqb_refl.
    + now rewrite E, IH.
Qed.

Variable canon : string -> string.

Lemma Header_values_Add_same (h : Header) (key value : string) :
  Header_values (Header_Add canon h key value) (canon key) =
  (Header_values h (canon key) ++ [value])%list.
Proof.
  unfold Header_Add, Header_values at 1.
  now rewrite Header_lookup_store_same.
Qed.

Lemma Header_lookup_Add_other (h : Header) (key value k : string) :
  k <> canon key ->
  Header_lookup (Header_Add canon h key value) k = Header_lookup h k.
Proof. intros N. unfold Header_Add. now apply Header_lookup_store_other. Qed.

(** Adding headers leaves the keys that are not theirs alone. *)
Lemma fold_Add_other (headers : list (string * string)) (h : Header)
    (k : string) :
  ~ In k (map canon (map fst headers)) ->
  Header_lookup
    (fold_left (fun h kv => Header_Add canon h (fst kv) (snd kv)) headers h) k =
  Header_lookup h k.
Proof.
  revert h. induction headers as [|[k0 v0] headers IH]; intros h N; simpl.
  - reflexivity.
  - simpl in N. rewrite IH by tauto.
    apply Header_lookup_Add_other. intros ->. tauto.
Qed.

(** A header whose canonical key no other header shares gets its value
    appended to the values of that key. *)
Lemma fold_Add_one (headers : list (string * string)) (h : Header)
    (k v : string) :
  NoDup (map canon (map fst headers)) ->
  In (k, v) headers ->
  Header_values
    (fold_left (fun h kv => Header_Add canon h (fst kv) (snd kv)) headers h)
    (canon k) =
  (Header_values h (canon k) ++ [v])%list.
Proof.
  revert h. induction headers as [|[k0 v0] headers IH]; intros h D I.
  - destruct I.
  - simpl in D. inversion D as [|x l Hnotin Hnodup]; subst.
    destruct I as [[= -> ->]|I]; simpl.
    + unfold Header_values at 1. rewrite fold_Add_other by exact Hnotin.
      apply Header_values_Add_same.
    + rewrite IH by assumption.
      unfold Header_values at 1.
      rewrite Header_lookup_Add_other; [reflexivity|].
      intros E. apply Hnotin. rewrite <- E.
      apply in_map. change k with (fst (k, v)). now apply in_map.
Qed.

End Headers.

Section Requests.

Import httpclient.

Variable RW : RequestWorld.

Local Abbreviation canon := (textproto_CanonicalMIMEHeaderKey RW).

(** When the constructor fails, [NewRequest] and [NewRequestWithHeaders]
    return no request, whatever the constructor returned beside the error,
    and the error wrapped with the message [creating request]. *)
Theorem request_constructor_failure (ctx : Context) (method url : string)
    (headers : list (string * string)) (req : option http.Request)
    (e : error) (s : State) :
  http_NewRequestWithContext RW ctx method url None = (req, Some e) ->
  let wrapped := withStack (next s) e "creating request" in
  NewRequest RW ctx method url s =
    ((None, Some wrapped), mkState (Pos.succ (next s)) (trace s)) /\
  NewRequestWithHeaders RW ctx method url headers s =
    ((None, Some wrapped), mkState (Pos.succ (next s)) (trace s)) /\
  error_Error wrapped = "creating request: " ++ error_Error e.
Proof.
  intros H wrapped.
  unfold NewRequest, NewRequestWithHeaders, newRequestWithContext.
  rewrite H. repeat split.
Qed.

(** [NewRequestWithHeaders] on success: the request is the constructed
    one with the headers added. A header whose canonical key no other
    header shares has its value appended to the values of that key, in
    whatever order the headers are visited, and the keys of no header
    keep their values. *)
Theorem NewRequestWithHeaders_adds_headers (ctx : Context)
    (method url : string) (headers : list (string * string))
    (r : http.Request) (s : State) :
  http_NewRequestWithContext RW ctx method url None = (Some r, None) ->
  NoDup (map canon (map fst headers)) ->
  exists r' : http.Request,
    NewRequestWithHeaders RW ctx method url headers s = ((Some r', None), s) /\
    http.Method r' = http.Method r /\
    http.URL r' = http.URL r /\
    http.RequestBody r' = http.RequestBody r /\
    (forall k v, In (k, v) headers ->
       Header_values (http.Header r') (canon k) =
       (Header_values (http.Header r) (canon k) ++ [v])%list) /\
    (forall key, ~ In key (map canon (map fst headers)) ->
       Header_lookup (http.Header r') key = Header_lookup (http.Header r) key).
Proof.
  intros H D.
  unfold NewRequestWithHeaders, newRequestWithContext. rewrite H; simpl.
  eexists. split; [reflexivity|]. simpl. repeat split.
  - intros k v I. now apply fold_Add_one.
  - intros key N. now apply fold_Add_other.
Qed.

(** The payload of [NewJsonRequest] reaches the constructor as it is: no
    body for nil, the bytes of a string unchanged and not encoded, the
    output of the encoder for any other value. The request returned is the
    constructed one with [Content-Type: application/json] as its only
    header, also when there is no body. *)
Theorem NewJsonRequest_payload (ctx : Context) (method url : string)
    (data : any) (r : http.Request) (s : State) :
  (forall v, data = anyValue v -> snd (json_Encode RW v) = None) ->
  http_NewRequestWithContext RW ctx method url
    (match data with
     | anyNil => None
     | anyString p => Some p
     | anyValue v => Some (fst (json_Encode RW v))
     end) = (Some r, None) ->
  NewJsonRequest RW ctx method url data s =
  ((Some (http.mkRequest (http.Method r) (http.URL r)
            [("Content-Type", ["application/json"])] (http.RequestBody r)),
    None), s).
Proof.
  intros Henc H.
  unfold NewJsonRequest, body, jsonEncode, newRequestWithContext, bind, ret.
  destruct data as [|p|v]; simpl in *.
  - now rewrite H.
  - now rewrite H.
  - specialize (Henc v eq_refl).
    destruct (json_Encode RW v) as [buf err]; simpl in *. subst err.
    simpl. now rewrite H.
Qed.

(** When the encoder fails, [NewJsonRequest] returns no request and the
    failure wrapped with the message [encoding request payload], whatever
    the constructor would do; [NewJsonRequestWithHeaders] returns the same
    error, not wrapped again. *)
Theorem json_encode_failure (ctx : Context) (method url : string)
    (headers : list (string * string)) (v : ptr) (buf : string) (e : error)
    (s : State) :
  json_Encode RW v = (buf, Some e) ->
  let wrapped := withStack (next s) e "encoding request payload" in
  NewJsonRequest RW ctx method url (anyValue v) s =
    ((None, Some wrapped), mkState (Pos.succ (next s)) (trace s)) /\
  NewJsonRequestWithHeaders RW ctx method url (anyValue v) headers s =
    ((None, Some wrapped), mkState (Pos.succ (next s)) (trace s)) /\
  error_Error wrapped = "encoding request payload: " ++ error_Error e.
Proof.
  intros H wrapped.
  unfold NewJsonRequestWithHeaders, NewJsonRequest, body, jsonEncode,
    bind, ret.
  rewrite H. repeat split.
Qed.

(** Every request [NewJsonRequestWithHeaders] returns keeps
    [application/json] as first value of [Content-Type]: a header of the
    caller with that canonical key adds a second value and replaces
    nothing. *)
Theorem NewJsonRequestWithHeaders_content_type (ctx : Context)
    (method url : string) (data : any) (headers : list (string * string))
    (k v : string) (r' : http.Request) (s : State) :
  NoDup (map canon (map fst headers)) ->
  In (k, v) headers ->
  canon k = "Content-Type" ->
  fst (fst (NewJsonRequestWithHeaders RW ctx method url data headers s)) =
    Some r' ->
  Header_values (http.Header r') "Content-Type" = ["application/json"; v].
Proof.
  intros D I Hk.
  unfold NewJsonRequestWithHeaders, NewJsonRequest, body, jsonEncode,
    newRequestWithContext, bind, ret.
  assert (Fold : forall r0 : http.Request,
    Header_values
      (http.Header
         (addHeaders RW headers
            (set_Header [("Content-Type", ["application/json"])] r0)))
      "Content-Type" = ["application/json"; v]).
  { intros r0. unfold addHeaders; simpl.
    rewrite <- Hk.
    rewrite (fold_Add_one canon headers _ k v D I).
    rewrite Hk. reflexivity. }
  destruct data as [|p|x]; simpl.
  - destruct (http_NewRequestWithContext RW ctx method url None)
      as [[r0|] [e|]]; simpl; try discriminate;
      intros [= <-]; apply Fold.
  - destruct (http_NewRequestWithContext RW ctx method url (Some p))
      as [[r0|] [e|]]; simpl; try discriminate;
      intros [= <-]; apply Fold.
  - destruct (json_Encode RW x) as [buf [e|]]; simpl; [discriminate|].
    destruct (http_NewRequestWithContext RW ctx method url (Some buf))
      as [[r0|] [e|]]; simpl; try discriminate;
      intros [= <-]; apply Fold.
Qed.

(** [AddAuthorizationBearerHeaderToRequest] makes [Bearer] followed by the
    token the only value of the authorization header, whatever values it
    had, and leaves every other key and the rest of the request alone. *)
Theorem AddAuthorizationBearer_sets_header (req : http.Request)
    (token : string) :
  let req' := AddAuthorizationBearerHeaderToRequest RW req token in
  Header_lookup (http.Header req') (canon "Authorization") =
    Some ["Bearer " ++ token] /\
  (forall k, k <> canon "Authorization" ->
     Header_lookup (http.Header req') k = Header_lookup (http.Header req) k) /\
  http.Method req' = http.Method req /\
  http.URL req' = http.URL req /\
  http.RequestBody req' = http.RequestBody req.
Proof.
  unfold AddAuthorizationBearerHeaderToRequest, Header_Set; simpl.
  repeat split.
  - apply Header_lookup_store_same.
  - intros k N. now apply Header_lookup_store_other.
Qed.

(** Of two tokens added to a request, the second replaces the first; in
    particular adding a token twice is adding it once. *)
Theorem AddAuthorizationBearer_last_token (req : http.Request)
    (token1 token2 : string) :
  AddAuthorizationBearerHeaderToRequest RW
    (AddAuthorizationBearerHeaderToRequest RW req token1) token2 =
  AddAuthorizationBearerHeaderToRequest RW req token2.
Proof.
  unfold AddAuthorizationBearerHeaderToRequest, Header_Set, set_Header; simpl.
  now rewrite Header_store_store.
Qed.

End Requests.

Section RequestsExamples.

Import httpclient.

Lemma request_constructor_failure_witness :
  NewRequestWithHeaders ex_request_world ctxTODO "" ex_url
    [("Custom-Header-1", "xxx")] ex_state =
  ((None,
    Some (withStack 10%positive
            (errorString 4%positive "net/http: invalid method")
            "creating request")),
   mkState 11%positive []).
Proof.
  exact (proj1 (proj2 (request_constructor_failure ex_request_world ctxTODO
                         "" ex_url [("Custom-Header-1", "xxx")] None
                         (errorString 4%positive "net/http: invalid method")
                         ex_state eq_refl))).
Defined.

Lemma NewRequestWithHeaders_adds_headers_witness :
  exists r' : http.Request,
    NewRequestWithHeaders ex_request_world ctxTODO "GET" ex_url
      [("Custom-Header-1", "xxx"); ("Custom-Header-2", "yyy")] ex_state =
      ((Some r', None), ex_state) /\
    Header_values (http.Header r') "Custom-Header-2" = ["yyy"].
Proof.
  assert (D : NoDup (map (textproto_CanonicalMIMEHeaderKey ex_request_world)
                       (map fst [("Custom-Header-1", "xxx");
                                 ("Custom-Header-2", "yyy")]))).
  { repeat constructor; simpl; intuition discriminate. }
  destruct (NewRequestWithHeaders_adds_headers ex_request_world ctxTODO "GET"
              ex_url [("Custom-Header-1", "xxx"); ("Custom-Header-2", "yyy")]
              (http.mkRequest "GET" ex_url [] None) ex_state eq_refl D)
    as (r' & E & _ & _ & _ & Hin & _).
  exists r'. split; [exact E|].
  exact (Hin "Custom-Header-2" "yyy" (or_intror (or_introl eq_refl))).
Defined.

Lemma NewJsonRequest_payload_witness :
  NewJsonRequest ex_request_world ctxTODO "POST" ex_url
    (anyString "key=value") ex_state =
  ((Some (http.mkRequest "POST" ex_url
            [("Content-Type", ["application/json"])] (Some "key=value")),
    None), ex_state).
Proof.
  exact (NewJsonRequest_payload ex_request_world ctxTODO "POST" ex_url
           (anyString "key=value")
           (http.mkRequest "POST" ex_url [] (Some "key=value")) ex_state
           ltac:(intros v H; discriminate H) eq_refl).
Defined.

Lemma json_encode_failure_witness :
  NewJsonRequestWithHeaders ex_request_world ctxTODO "POST" ex_url
    (anyValue 1%positive) [("Custom-Header-1", "xxx")] ex_state =
  ((None,
    Some (withStack 10%positive
            (errorString 5%positive "json: unsupported type")
            "encoding request payload")),
   mkState 11%positive []).
Proof.
  exact (proj1 (proj2 (json_encode_failure ex_request_world ctxTODO "POST"
                         ex_url [("Custom-Header-1", "xxx")] 1%positive ""
                         (errorString 5%positive "json: unsupported type")
                         ex_state eq_refl))).
Defined.

Lemma NewJsonRequestWithHeaders_content_type_witness :
  Header_values
    (http.Header
       (http.mkRequest "POST" ex_url
          [("Content-Type", ["application/json"; "text/plain"]);
           ("Custom-Header-1", ["xxx"])]
          (Some "{}")))
    "Content-Type" = ["application/json"; "text/plain"].
Proof.
  assert (D : NoDup (map (textproto_CanonicalMIMEHeaderKey ex_request_world)
                       (map fst [("Content-Type", "text/plain");
                                 ("Custom-Header-1", "xxx")]))).
  { repeat constructor; simpl; intuition discriminate. }
  exact (NewJsonRequestWithHeaders_content_type ex_request_world ctxTODO
           "POST" ex_url (anyValue 2%positive)
           [("Content-Type", "text/plain"); ("Custom-Header-1", "xxx")]
           "Content-Type" "text/plain"
           (http.mkRequest "POST" ex_url
              [("Content-Type", ["application/json"; "text/plain"]);
               ("Custom-Header-1", ["xxx"])]
              (Some "{}"))
           ex_state D (or_introl eq_refl) eq_refl eq_refl).
Defined.

Lemma AddAuthorizationBearer_sets_header_witness :
  Header_lookup
    (http.Header
       (AddAuthorizationBearerHeaderToRequest ex_request_world
          (http.mkRequest "GET" ex_url [("CustomHeader", ["blablabla"])] None)
          "sometoken"))
    "CustomHeader" = Some ["blablabla"].
Proof.
  exact (proj1 (proj2 (AddAuthorizationBearer_sets_header ex_request_world
                         (http.mkRequest "GET" ex_url
                            [("CustomHeader", ["blablabla"])] None)
                         "sometoken"))
           "CustomHeader" ltac:(discriminate)).
Defined.

(** The cases of the package's test of the authorization header. *)
Example TestAddAuthorizationBearer_with_existing_headers :
  http.Header
    (AddAuthorizationBearerHeaderToRequest ex_request_world
       (http.mkRequest "GET" ex_url [("CustomHeader", ["blablabla"])] None)
       "sometoken") =
  [("CustomHeader", ["blablabla"]); ("Authorization", ["Bearer sometoken"])].
Proof. reflexivity. Qed.

End RequestsExamples.
